(** * The AI Engineer Challenge: chat front end and retrieval core

    A shallow embedding of the Next.js pages of the repository (the general
    chat page with its streaming reader, the session page with PDF upload,
    and the pdf-chat page), followed by a model of the retrieval core
    (chunker, vector index, session store, upload), which is written in
    Python and is modelled here from the specification.

    Asynchronous handlers are embedded as functions of the component state
    and of the answers the environment gives (file reader, [fetch],
    [response.json()], the body stream); every handler returns the new
    component state together with the trace of the effects it performed. *)

From Stdlib Require Import Reals Lra Lia ZArith List String Ascii Bool Arith.
From Stdlib Require Import DecimalString.
From stdpp Require Import gmap strings sorting.
Import ListNotations.
Local Open Scope string_scope.
Local Open Scope nat_scope.
Local Open Scope list_scope.

(* ================================================================== *)
(** ** JavaScript values                                                *)
(* ================================================================== *)

(** Values that [response.json()] can produce, plus [undefined].  Numbers
    are restricted to integers: the pages never compute with them, they only
    test truthiness and interpolate them into messages. *)
#[warnings="-register-all"] Inductive JsValue : Type :=
| JUndefined
| JNull
| JBool (b : bool)
| JNum (n : Z)
| JStr (s : string)
| JArr (items : list JsValue)
| JObj (fields : list (string * JsValue)).

(** What a [catch] clause receives: an [Error] instance with its message, or
    some other rejected value (the [ProgressEvent] of [reader.onerror]). *)
Inductive Thrown : Type :=
| ErrorObj (message : string)
| NonError.

(** A computation that either completes or throws. *)
Inductive Completion (A : Type) : Type :=
| Normal (a : A)
| Throw (t : Thrown).
Arguments Normal {A} a.
Arguments Throw {A} t.

Definition cbind {A B} (c : Completion A) (k : A -> Completion B) : Completion B :=
  match c with
  | Normal a => k a
  | Throw t => Throw t
  end.

(** [Completion] is used through stdpp's monad notation [x ← c; k]. *)
#[global] Instance Completion_ret : MRet Completion := fun A a => Normal a.
#[global] Instance Completion_bind : MBind Completion := fun A B k c => cbind c k.

(** The one-character string holding a double quote. *)
Definition dquote : string := String (ascii_of_nat 34) EmptyString.

(** [ToBoolean]. *)
Definition truthy (v : JsValue) : bool :=
  match v with
  | JUndefined | JNull => false
  | JBool b => b
  | JNum n => negb (Z.eqb n 0)
  | JStr s => negb (String.eqb s EmptyString)
  | JArr _ | JObj _ => true
  end.

(** [a || b]. *)
Definition js_or (a b : JsValue) : JsValue := if truthy a then a else b.

(** Lookup of an own property in a parsed JSON object; with duplicate keys
    [JSON.parse] keeps the last one. *)
Fixpoint lookup_field (name : string) (fields : list (string * JsValue)) : JsValue :=
  match fields with
  | [] => JUndefined
  | (k, v) :: rest =>
      match lookup_field name rest with
      | JUndefined => if String.eqb k name then v else JUndefined
      | found => found
      end
  end.

(** What the language leaves to the engine is a parameter of the platform:
    the wording of the [TypeError] raised by a property read on [null] or
    [undefined] and of the one raised when an object cannot be converted to a
    primitive value, the text decoder, and how a number outside the range of
    the safe integers is printed. *)
Record Platform : Type := {
  TypeError_message : string -> string;
  TextDecoder_decode : list Byte.byte -> string;
  ToPrimitive_TypeError : string;
  Number_toString : Z -> string
}.

(** Property read [v.name]. *)
Definition get_prop (pf : Platform) (v : JsValue) (name : string) : Completion JsValue :=
  match v with
  | JUndefined | JNull => Throw (ErrorObj (TypeError_message pf name))
  | JObj fields => Normal (lookup_field name fields)
  | _ => Normal JUndefined
  end.

Definition string_of_Z (n : Z) : string := NilZero.string_of_int (Z.to_int n).

(** [Number.MAX_SAFE_INTEGER], 2^53 - 1. *)
Definition MAX_SAFE_INTEGER : Z := 9007199254740991.

(** [Number::toString] on an integer: the safe integers print as their
    decimal digits; beyond them the digits are rounded or the exponent
    notation sets in, which is left to the platform. *)
Definition number_to_string (pf : Platform) (n : Z) : string :=
  if (Z.abs n <=? MAX_SAFE_INTEGER)%Z then string_of_Z n else Number_toString pf n.

Fixpoint join_with (sep : string) (parts : list string) : string :=
  match parts with
  | [] => EmptyString
  | [p] => p
  | p :: rest => p +:+ sep +:+ join_with sep rest
  end.

(** Whether a parsed JSON object has an own property of that name. *)
Definition has_own (name : string) (fields : list (string * JsValue)) : bool :=
  existsb (fun field => String.eqb (fst field) name) fields.

(** [ToString], as used by template literals and by [new Error(v)].  A
    parsed object with an own [toString] property, which is never callable,
    cannot be converted: a [TypeError] is thrown; any other object goes
    through [Object.prototype.toString].  An array goes through
    [Array.prototype.join], which renders [null] and [undefined] items as
    empty and converts the others from left to right. *)
Fixpoint to_string (pf : Platform) (v : JsValue) : Completion string :=
  match v with
  | JUndefined => Normal "undefined"
  | JNull => Normal "null"
  | JBool true => Normal "true"
  | JBool false => Normal "false"
  | JNum n => Normal (number_to_string pf n)
  | JStr s => Normal s
  | JArr items =>
      match
        (fix items_to_string (l : list JsValue) : Completion (list string) :=
           match l with
           | [] => Normal []
           | x :: l' =>
               match
                 match x with
                 | JUndefined | JNull => Normal EmptyString
                 | _ => to_string pf x
                 end
               with
               | Throw t => Throw t
               | Normal part =>
                   match items_to_string l' with
                   | Throw t => Throw t
                   | Normal parts => Normal (part :: parts)
                   end
               end
           end) items
      with
      | Throw t => Throw t
      | Normal parts => Normal (join_with "," parts)
      end
  | JObj fields =>
      if has_own "toString" fields then Throw (ErrorObj (ToPrimitive_TypeError pf))
      else Normal "[object Object]"
  end.

(** [throw new Error(v)]: the message is [v] converted to a string, and the
    conversion itself can throw. *)
Definition throw_new_Error {A} (pf : Platform) (v : JsValue) : Completion A :=
  match to_string pf v with
  | Normal message => Throw (ErrorObj message)
  | Throw t => Throw t
  end.

(** [error instanceof Error ? error.message : fallback]. *)
Definition error_message_or (fallback : string) (t : Thrown) : string :=
  match t with
  | ErrorObj m => m
  | NonError => fallback
  end.

(** Strings are sequences of UTF-8 bytes.  The white space that
    [String.prototype.trim] removes: the one-byte characters U+0009 to
    U+000D and U+0020, ... *)
Definition is_js_space (a : ascii) : bool :=
  let n := nat_of_ascii a in
  ((9 <=? n) && (n <=? 13)) || (n =? 32).

(** ... the two-byte character U+00A0, ... *)
Definition is_js_space2 (a b : ascii) : bool :=
  (nat_of_ascii a =? 194) && (nat_of_ascii b =? 160).

(** ... and the three-byte characters U+1680, U+2000 to U+200A, U+2028,
    U+2029, U+202F, U+205F, U+3000 and U+FEFF. *)
Definition is_js_space3 (a b c : ascii) : bool :=
  let x := nat_of_ascii a in
  let y := nat_of_ascii b in
  let z := nat_of_ascii c in
  ((x =? 225) && (y =? 154) && (z =? 128)) ||
  ((x =? 226) && (y =? 128) &&
     (((128 <=? z) && (z <=? 138)) || (z =? 168) || (z =? 169) || (z =? 175))) ||
  ((x =? 226) && (y =? 129) && (z =? 159)) ||
  ((x =? 227) && (y =? 128) && (z =? 128)) ||
  ((x =? 239) && (y =? 187) && (z =? 191)).

(** [!input.trim()]: the input is empty or consists of white space only. *)
Fixpoint blank (s : string) : bool :=
  match s with
  | EmptyString => true
  | String a rest =>
      if is_js_space a then blank rest
      else
        match rest with
        | EmptyString => false
        | String b rest2 =>
            if is_js_space2 a b then blank rest2
            else
              match rest2 with
              | EmptyString => false
              | String c rest3 => is_js_space3 a b c && blank rest3
              end
        end
  end.

Definition lower_ascii (a : ascii) : ascii :=
  let n := nat_of_ascii a in
  if (65 <=? n) && (n <=? 90) then ascii_of_nat (n + 32) else a.

(** [String.prototype.toLowerCase] on the letters [A]-[Z].  Letters outside
    ASCII are left as they are; none of them lowers to a character of
    [.pdf], which is all the pages use the function for. *)
Fixpoint toLowerCase (s : string) : string :=
  match s with
  | EmptyString => EmptyString
  | String a rest => String (lower_ascii a) (toLowerCase rest)
  end.

(** [String.prototype.endsWith]. *)
Definition endsWith (suffix s : string) : bool :=
  let n := String.length s in
  let m := String.length suffix in
  (m <=? n) && String.eqb (substring (n - m) m s) suffix.

(** The guard shared by both upload handlers:
    [file.name.toLowerCase().endsWith('.pdf')]. *)
Definition is_pdf_name (name : string) : bool := endsWith ".pdf" (toLowerCase name).

(* ================================================================== *)
(** ** Effects and environment answers                                  *)
(* ================================================================== *)

Inductive RequestBody : Type :=
| NoBody
| JsonBody (v : JsValue)               (* JSON.stringify(v) *)
| FormDataFile (file_name : string).   (* FormData with the file appended *)

(** [RenderCrash] records that a state updater queued by the handler throws
    when React runs it: that happens at render, outside the [try] of the
    handler, and takes the page down.  The state a handler returns next to
    it is what its other writes give. *)
Inductive Effect : Type :=
| Alert (msg : string)
| ConsoleError (label : string) (t : Thrown)
| Fetch (url : string) (method : string) (body : RequestBody)
| ResetFileInput
| RenderCrash (t : Thrown).

Definition is_fetch (e : Effect) : bool :=
  match e with
  | Fetch _ _ _ => true
  | _ => false
  end.

Definition is_render_crash (e : Effect) : bool :=
  match e with
  | RenderCrash _ => true
  | _ => false
  end.

(** How a body stream behaves: the chunks [reader.read()] delivers, then
    either [done] or a rejection. *)
Record BodyStream : Type := {
  chunks : list (list Byte.byte);
  failure : option Thrown
}.

(** What the environment answers to one [fetch]. *)
Inductive FetchOutcome : Type :=
| FetchRejected (t : Thrown)
| FetchResponse (ok : bool) (json : Completion JsValue) (body : option BodyStream).

Inductive Role : Type := user | assistant.

Record Message : Type := {
  role : Role;
  content : JsValue
}.

(** [{ role: 'assistant', content: text }] *)
Definition assistant_says (text : string) : Message :=
  {| role := assistant; content := JStr text |}.

Definition user_says (text : string) : Message :=
  {| role := user; content := JStr text |}.

(** The updater of the streaming loop:
    [newMessages = [...prev]; newMessages[newMessages.length - 1].content = acc].
    The copy is shallow, so the message object that is written is shared with
    [prev]; only the returned array is kept as the state.  On an empty array
    the source would read [undefined.content]; the handlers only run this
    after appending the assistant placeholder. *)
Definition set_last_content (acc : string) (prev : list Message) : list Message :=
  alter (fun m => {| role := role m; content := JStr acc |}) (length prev - 1) prev.

(** The system prompt sent by the general chat of [page.tsx] (first version)
    and of the session page. *)
Definition developer_message_markdown : string :=
  "Respond in Markdown with bullet points where helpful. Include code examples in code blocks. Label your answer sections with headers. You are a spiritual guide that combines Isaac Asimov's scientific vision with ancient Indian wisdom. Respond with insights that merge Asimov's Three Laws of Robotics with concepts from Vedanta, while maintaining a futuristic yet spiritual perspective.".

(** The system prompt of the second version of [page.tsx]. *)
Definition developer_message_plain : string :=
  "You are a spiritual guide that combines Isaac Asimov's scientific vision with ancient Indian wisdom. Respond with insights that merge Asimov's Three Laws of Robotics with concepts from Vedanta, while maintaining a futuristic yet spiritual perspective.".

(* ================================================================== *)
(** ** The streaming reader shared by both versions of [page.tsx]       *)
(* ================================================================== *)

Module Streaming.

(** The [while (true)] loop over [reader.read()]: every delivered chunk is
    decoded, appended to [accumulatedResponse], and the last message is
    overwritten with the accumulated text.  Returns the messages and the
    accumulated text when the stream is exhausted. *)
Fixpoint read_loop (pf : Platform) (pending : list (list Byte.byte))
    (accumulatedResponse : string) (messages : list Message)
  : list Message * string :=
  match pending with
  | [] => (messages, accumulatedResponse)
  | value :: rest =>
      let text := TextDecoder_decode pf value in
      let accumulatedResponse := accumulatedResponse +:+ text in
      read_loop pf rest accumulatedResponse
        (set_last_content accumulatedResponse messages)
  end.

(** The body of the [try] block after [fetch] has answered.  State updates
    made before a throw stay in place. *)
Definition consume_response (pf : Platform) (outcome : FetchOutcome)
    (messages : list Message) : list Message * Completion unit :=
  match outcome with
  | FetchRejected t => (messages, Throw t)
  | FetchResponse ok _ body =>
      if negb ok then
        (messages, Throw (ErrorObj "Failed to get response from the server"))
      else
        match body with
        | None => (messages, Throw (ErrorObj "No response body"))
        | Some stream =>
            let messages := messages ++ [assistant_says EmptyString] in
            let '(messages, _) := read_loop pf (chunks stream) EmptyString messages in
            match failure stream with
            | None => (messages, Normal tt)
            | Some t => (messages, Throw t)
            end
        end
  end.

(** [catch (error)] of [handleSubmit]. *)
Definition on_error (t : Thrown) (messages : list Message)
  : list Message * list Effect :=
  (messages ++
     [assistant_says ("Error: " +:+ error_message_or "Failed to connect to the backend" t)],
   [ConsoleError "Error:" t]).

Definition settle (r : list Message * Completion unit) : list Message * list Effect :=
  match r with
  | (messages, Normal _) => (messages, [])
  | (messages, Throw t) => on_error t messages
  end.

End Streaming.

(* ================================================================== *)
(** ** [frontend/src/app/page.tsx], first version: general chat          *)
(* ================================================================== *)

Module ChatPage.

Record State : Type := {
  messages : list Message;
  input : string;
  isLoading : bool
}.

Definition chat_request (input : string) : Effect :=
  Fetch "/api/chat" "POST"
    (JsonBody (JObj [("user_message", JStr input);
                     ("developer_message", JStr developer_message_markdown);
                     ("model", JStr "gpt-4.1-mini")])).

Definition handleSubmit (pf : Platform) (st : State) (outcome : FetchOutcome)
  : State * list Effect :=
  if blank (input st) then (st, [])
  else
    let sent := messages st ++ [user_says (input st)] in
    let '(msgs, effs) :=
      Streaming.settle (Streaming.consume_response pf outcome sent) in
    ({| messages := msgs; input := EmptyString; isLoading := false |},
     chat_request (input st) :: effs).

End ChatPage.

(* ================================================================== *)
(** ** [frontend/src/app/page.tsx], second version: chat with an API key *)
(* ================================================================== *)

Module ChatPageWithKey.

Record State : Type := {
  messages : list Message;
  input : string;
  isLoading : bool;
  apiKey : string;
  showApiKeyInput : bool
}.

(** [process.env.NEXT_PUBLIC_BACKEND_URL || 'http://localhost:8000'] *)
Definition backendUrl (env_backend_url : option string) : string :=
  match env_backend_url with
  | Some url => if String.eqb url EmptyString then "http://localhost:8000" else url
  | None => "http://localhost:8000"
  end.

Definition chat_request (env_backend_url : option string) (input apiKey : string) : Effect :=
  Fetch (backendUrl env_backend_url +:+ "/api/chat") "POST"
    (JsonBody (JObj [("user_message", JStr input);
                     ("developer_message", JStr developer_message_plain);
                     ("model", JStr "gpt-4.1-mini");
                     ("api_key", JStr apiKey)])).

Definition handleSubmit (pf : Platform) (env_backend_url : option string)
    (st : State) (outcome : FetchOutcome) : State * list Effect :=
  if blank (input st) then (st, [])
  else if String.eqb (apiKey st) EmptyString then
    ({| messages := messages st ++ [assistant_says "Please enter your OpenAI API key first."];
        input := input st; isLoading := isLoading st;
        apiKey := apiKey st; showApiKeyInput := true |}, [])
  else
    let sent := messages st ++ [user_says (input st)] in
    let '(msgs, effs) :=
      Streaming.settle (Streaming.consume_response pf outcome sent) in
    ({| messages := msgs; input := EmptyString; isLoading := false;
        apiKey := apiKey st; showApiKeyInput := showApiKeyInput st |},
     chat_request env_backend_url (input st) (apiKey st) :: effs).

Definition handleApiKeySubmit (st : State) : State :=
  if blank (apiKey st) then st
  else
    {| messages := messages st ++ [assistant_says "API key set successfully. You can now start chatting!"];
       input := input st; isLoading := isLoading st;
       apiKey := apiKey st; showApiKeyInput := false |}.

End ChatPageWithKey.

(* ================================================================== *)
(** ** The session page (unnamed part 001): PDF upload and RAG chat      *)
(* ================================================================== *)

(** Pieces of [s.split(sep)] for a one-character separator. *)
Fixpoint split_on (sep : ascii) (s : string) : list string :=
  match s with
  | EmptyString => [EmptyString]
  | String a rest =>
      if Ascii.eqb a sep then EmptyString :: split_on sep rest
      else match split_on sep rest with
           | [] => [String a EmptyString]
           | piece :: pieces => String a piece :: pieces
           end
  end.

(** [arr[i]] on an array of strings: [undefined] out of range. *)
Definition string_at (pieces : list string) (i : nat) : JsValue :=
  match pieces !! i with
  | Some piece => JStr piece
  | None => JUndefined
  end.

(** Answer of the [FileReader] to [readAsDataURL]. *)
Inductive FileReadOutcome : Type :=
| ReadLoaded (dataUrl : string)
| ReadFailed.

Module RagPage.

(** [interface Session]; the fields hold whatever the server sent. *)
Record Session : Type := {
  session_id : JsValue;
  filename : JsValue;
  chunks_count : JsValue
}.

Inductive ChatMode : Type := general | rag.

Record State : Type := {
  messages : list Message;
  input : string;
  isLoading : bool;
  currentSession : option Session;
  sessions : JsValue;
  uploading : bool;
  chatMode : ChatMode
}.

Definition with_messages (msgs : list Message) (st : State) : State :=
  {| messages := msgs; input := input st; isLoading := isLoading st;
     currentSession := currentSession st; sessions := sessions st;
     uploading := uploading st; chatMode := chatMode st |}.

Definition with_sessions (v : JsValue) (st : State) : State :=
  {| messages := messages st; input := input st; isLoading := isLoading st;
     currentSession := currentSession st; sessions := v;
     uploading := uploading st; chatMode := chatMode st |}.

Definition with_uploading (b : bool) (st : State) : State :=
  {| messages := messages st; input := input st; isLoading := isLoading st;
     currentSession := currentSession st; sessions := sessions st;
     uploading := b; chatMode := chatMode st |}.

(** [loadSessions]: the only state it may change is [sessions]; it
    catches everything it throws. *)
Definition loadSessions (pf : Platform) (st : State) (outcome : FetchOutcome)
  : State * list Effect :=
  let request := Fetch "/api/rag/sessions" "GET" NoBody in
  match outcome with
  | FetchRejected t => (st, [request; ConsoleError "Error loading sessions:" t])
  | FetchResponse ok json _ =>
      if ok then
        match (data ← json; get_prop pf data "sessions") with
        | Normal v => (with_sessions v st, [request])
        | Throw t => (st, [request; ConsoleError "Error loading sessions:" t])
        end
      else (st, [request])
  end.

Definition upload_request (base64Content : JsValue) (name : string) : Effect :=
  Fetch "/api/rag/upload" "POST"
    (JsonBody (JObj [("file", base64Content); ("filename", JStr name)])).

(** The [try] block of [handleFileUpload] up to the argument of
    [setCurrentSession]: the answer is read as JSON and its three fields are
    read; nothing has been written to the state when this throws. *)
Definition read_upload_result (pf : Platform) (upload : FetchOutcome)
  : Completion Session :=
  match upload with
  | FetchRejected t => Throw t
  | FetchResponse ok json _ =>
      if negb ok then Throw (ErrorObj "Failed to upload PDF")
      else
        result ← json;
        sid ← get_prop pf result "session_id";
        fname ← get_prop pf result "filename";
        count ← get_prop pf result "chunks_count";
        mret {| session_id := sid; filename := fname; chunks_count := count |}
  end.

(** The template literal of the success message; each substitution is
    converted to a string, the file name first. *)
Definition welcome_text (pf : Platform) (session : Session) : Completion string :=
  fname ← to_string pf (filename session);
  count ← to_string pf (chunks_count session);
  mret ("PDF " +:+ dquote +:+ fname +:+ dquote +:+
        " uploaded successfully! I've processed " +:+ count +:+
        " text chunks. You can now ask me questions about this document.").

(** [catch] and [finally] of [handleFileUpload], on the state as the [try]
    block left it. *)
Definition upload_failed (t : Thrown) (st : State) : State * list Effect :=
  (with_uploading false
     (with_messages
        [assistant_says ("Error uploading PDF: " +:+ error_message_or "Unknown error" t)] st),
   [ConsoleError "Upload error:" t]).

(** [handleFileUpload].  After the answer has been read, the current
    session and the mode are written and the messages emptied before the
    success message is built; when building it throws, [catch] finds the
    state with these writes made, and the session list is not reloaded. *)
Definition handleFileUpload (pf : Platform) (st : State) (file : option string)
    (read : FileReadOutcome) (upload reload : FetchOutcome) : State * list Effect :=
  match file with
  | None => (st, [])
  | Some name =>
      if negb (is_pdf_name name) then (st, [Alert "Please select a PDF file"])
      else
        match read with
        | ReadFailed => upload_failed NonError st
        | ReadLoaded base64Data =>
            let base64Content := string_at (split_on "," base64Data) 1 in
            let request := upload_request base64Content name in
            match read_upload_result pf upload with
            | Throw t =>
                let '(st', effs) := upload_failed t st in (st', request :: effs)
            | Normal session =>
                let st1 :=
                  {| messages := []; input := input st; isLoading := isLoading st;
                     currentSession := Some session; sessions := sessions st;
                     uploading := true; chatMode := rag |} in
                match welcome_text pf session with
                | Throw t =>
                    let '(st', effs) := upload_failed t st1 in (st', request :: effs)
                | Normal text =>
                    let '(st2, effs) :=
                      loadSessions pf (with_messages [assistant_says text] st1) reload in
                    (with_uploading false st2, request :: effs)
                end
            end
        end
  end.

Definition rag_chat_request (sid : JsValue) (input : string) : Effect :=
  Fetch "/api/rag/chat" "POST"
    (JsonBody (JObj [("session_id", sid);
                     ("user_message", JStr input);
                     ("model", JStr "gpt-4.1-mini")])).

Definition general_chat_request (input : string) : Effect :=
  Fetch "/api/chat" "POST"
    (JsonBody (JObj [("user_message", JStr input);
                     ("developer_message", JStr developer_message_markdown);
                     ("model", JStr "gpt-4.1-mini")])).

(** [chatMode === 'rag' && currentSession] selects the RAG endpoint. *)
Definition chat_request (st : State) : Effect :=
  match chatMode st, currentSession st with
  | rag, Some session => rag_chat_request (session_id session) (input st)
  | _, _ => general_chat_request (input st)
  end.

(** The text shown for a JSON answer:
    [responseData.content || responseData.message || 'No response content'],
    after [responseData.error] has been ruled out. *)
Definition read_chat_answer (pf : Platform) (outcome : FetchOutcome)
  : Completion JsValue :=
  match outcome with
  | FetchRejected t => Throw t
  | FetchResponse ok json _ =>
      if negb ok then Throw (ErrorObj "Failed to get response from the server")
      else
        responseData ← json;
        err ← get_prop pf responseData "error";
        if truthy err then throw_new_Error pf err
        else
          c ← get_prop pf responseData "content";
          m ← get_prop pf responseData "message";
          mret (js_or (js_or c m) (JStr "No response content"))
  end.

Definition handleSubmit (pf : Platform) (st : State) (outcome : FetchOutcome)
  : State * list Effect :=
  if blank (input st) then (st, [])
  else
    let sent := messages st ++ [user_says (input st)] in
    let '(reply, effs) :=
      match read_chat_answer pf outcome with
      | Normal text => ({| role := assistant; content := text |}, [])
      | Throw t =>
          (assistant_says
             ("Error: " +:+ error_message_or "Failed to connect to the backend" t),
           [ConsoleError "Error:" t])
      end in
    ({| messages := sent ++ [reply]; input := EmptyString; isLoading := false;
        currentSession := currentSession st; sessions := sessions st;
        uploading := uploading st; chatMode := chatMode st |},
     chat_request st :: effs).

Definition switchToGeneralChat (st : State) : State :=
  {| messages := []; input := input st; isLoading := isLoading st;
     currentSession := None; sessions := sessions st;
     uploading := uploading st; chatMode := general |}.

(** [switchToRAGChat]: the mode and the session are written before the
    notice is built; when the file name cannot be converted to a string the
    handler ends there with an uncaught exception and the messages stay. *)
Definition switchToRAGChat (pf : Platform) (session : Session) (st : State) : State :=
  {| messages :=
       match to_string pf (filename session) with
       | Normal fname =>
           [assistant_says
              ("Switched to chat with " +:+ dquote +:+ fname +:+ dquote +:+
               ". You can now ask me questions about this document.")]
       | Throw _ => messages st
       end;
     input := input st; isLoading := isLoading st;
     currentSession := Some session; sessions := sessions st;
     uploading := uploading st; chatMode := rag |}.

(** The state the component is mounted with. *)
Definition initial : State :=
  {| messages := []; input := EmptyString; isLoading := false;
     currentSession := None; sessions := JArr []; uploading := false;
     chatMode := general |}.

(** [onChange] of the text input: [setInput(e.target.value)]. *)
Definition setInput (text : string) (st : State) : State :=
  {| messages := messages st; input := text; isLoading := isLoading st;
     currentSession := currentSession st; sessions := sessions st;
     uploading := uploading st; chatMode := chatMode st |}.

Definition delete_request (sessionId : string) : Effect :=
  Fetch ("/api/rag/sessions/" +:+ sessionId) "DELETE" NoBody.

(** [currentSession?.session_id === sessionId] for the string [sessionId]:
    strict equality holds only for a string with the same characters. *)
Definition is_current (st : State) (sessionId : string) : bool :=
  match currentSession st with
  | Some session =>
      match session_id session with
      | JStr sid => String.eqb sid sessionId
      | _ => false
      end
  | None => false
  end.

(** [deleteSession]: [del] answers the DELETE request, [reload] the request
    of [loadSessions].  The comparison reads the [currentSession] the
    handler was created with. *)
Definition deleteSession (pf : Platform) (st : State) (sessionId : string)
    (del reload : FetchOutcome) : State * list Effect :=
  let request := delete_request sessionId in
  match del with
  | FetchRejected t => (st, [request; ConsoleError "Error deleting session:" t])
  | FetchResponse ok _ _ =>
      if ok then
        let '(st1, effs) := loadSessions pf st reload in
        (if is_current st sessionId then switchToGeneralChat st1 else st1,
         request :: effs)
      else (st, [request])
  end.

(** What can happen to the mounted component, with the answers of the
    environment each handler consumes. *)
Inductive Event : Type :=
| InputChanged (text : string)
| FormSubmitted (outcome : FetchOutcome)
| FileChosen (file : option string) (read : FileReadOutcome) (upload reload : FetchOutcome)
| SessionsRequested (outcome : FetchOutcome)
| GeneralChatClicked
| SessionClicked (session : Session)
| DeleteClicked (sessionId : string) (del reload : FetchOutcome).

Definition step (pf : Platform) (st : State) (ev : Event) : State :=
  match ev with
  | InputChanged text => setInput text st
  | FormSubmitted outcome => fst (handleSubmit pf st outcome)
  | FileChosen file read upload reload => fst (handleFileUpload pf st file read upload reload)
  | SessionsRequested outcome => fst (loadSessions pf st outcome)
  | GeneralChatClicked => switchToGeneralChat st
  | SessionClicked session => switchToRAGChat pf session st
  | DeleteClicked sessionId del reload => fst (deleteSession pf st sessionId del reload)
  end.

(** The state after a sequence of events, each handler running to its end
    before the next event. *)
Definition run (pf : Platform) (events : list Event) : State :=
  foldl (step pf) initial events.

End RagPage.

(* ================================================================== *)
(** ** The pdf-chat page (unnamed part 002)                              *)
(* ================================================================== *)

Module PdfChatPage.

(** Messages of this page carry the time they were created;
    [new Date()] is an answer of the environment. *)
Record Message : Type := {
  role : Role;
  content : JsValue;
  timestamp : Z
}.

Record UploadedPDF : Type := {
  filename : JsValue;
  status : JsValue
}.

Record State : Type := {
  messages : list Message;
  input : string;
  isLoading : bool;
  uploadedPDFs : list UploadedPDF;
  selectedPDF : JsValue;
  isUploading : bool
}.

(** [process.env.NEXT_PUBLIC_API_URL || 'http://localhost:8000'] *)
Definition apiUrl (env_api_url : option string) : string :=
  match env_api_url with
  | Some url => if String.eqb url EmptyString then "http://localhost:8000" else url
  | None => "http://localhost:8000"
  end.

Definition upload_request (env_api_url : option string) (name : string) : Effect :=
  Fetch (apiUrl env_api_url +:+ "/api/upload_pdf") "POST" (FormDataFile name).

(** [errorData = await response.json(); throw new Error(errorData.detail || fallback)] *)
Definition throw_detail (pf : Platform) (json : Completion JsValue) (fallback : string)
  : Completion JsValue :=
  errorData ← json;
  detail ← get_prop pf errorData "detail";
  throw_new_Error pf (js_or detail (JStr fallback)).

(** The [try] block of [handleFileUpload] up to
    [const result = await response.json()]. *)
Definition read_upload_result (pf : Platform) (upload : FetchOutcome)
  : Completion JsValue :=
  match upload with
  | FetchRejected t => Throw t
  | FetchResponse ok json _ =>
      if negb ok then throw_detail pf json "Failed to upload PDF" else json
  end.

Definition with_messages (msgs : list Message) (st : State) : State :=
  {| messages := msgs; input := input st; isLoading := isLoading st;
     uploadedPDFs := uploadedPDFs st; selectedPDF := selectedPDF st;
     isUploading := isUploading st |}.

(** [catch] and [finally] of [handleFileUpload]. *)
Definition upload_failed (t : Thrown) (st : State) (now : Z) : State * list Effect :=
  ({| messages := messages st ++
        [{| role := assistant;
            content := JStr ("❌ Error uploading PDF: " +:+
                             error_message_or "Unknown error" t);
            timestamp := now |}];
      input := input st; isLoading := isLoading st;
      uploadedPDFs := uploadedPDFs st; selectedPDF := selectedPDF st;
      isUploading := false |},
   [ConsoleError "Upload error:" t; ResetFileInput]).

(** [handleFileUpload].  Once [result] is there, the handler itself only
    evaluates [result.filename], for [setSelectedPDF]; the new row and the
    success message are built inside the updaters given to
    [setUploadedPDFs] and [setMessages], which React runs at render.  So a
    [null] result is caught (the read for [setSelectedPDF] throws) and the
    updater of the row, already queued, throws at render; and a file name
    that cannot be converted to a string makes the updater of the message
    throw at render. *)
Definition handleFileUpload (pf : Platform) (env_api_url : option string) (st : State)
    (file : option string) (upload : FetchOutcome) (now : Z) : State * list Effect :=
  match file with
  | None => (st, [])
  | Some name =>
      if negb (is_pdf_name name) then (st, [Alert "Please select a PDF file."])
      else
        let request := upload_request env_api_url name in
        match read_upload_result pf upload with
        | Throw t =>
            let '(st', effs) := upload_failed t st now in (st', request :: effs)
        | Normal result =>
            match get_prop pf result "filename", get_prop pf result "status" with
            | Normal fname, Normal fstatus =>
                let st1 :=
                  {| messages := messages st; input := input st; isLoading := isLoading st;
                     uploadedPDFs := uploadedPDFs st ++ [{| filename := fname; status := fstatus |}];
                     selectedPDF := fname;
                     isUploading := false |} in
                match to_string pf fname with
                | Normal text =>
                    (with_messages
                       (messages st ++
                          [{| role := assistant;
                              content := JStr ("✅ PDF " +:+ dquote +:+ text +:+ dquote +:+
                                " uploaded and indexed successfully! You can now ask questions about this document.");
                              timestamp := now |}]) st1,
                     [request; ResetFileInput])
                | Throw t => (st1, [request; ResetFileInput; RenderCrash t])
                end
            | Throw t, _ | _, Throw t =>
                let '(st', effs) := upload_failed t st now in
                (st', request :: effs ++ [RenderCrash t])
            end
        end
  end.

Definition chat_request (env_api_url : option string) (st : State) : Effect :=
  Fetch (apiUrl env_api_url +:+ "/api/pdf_chat") "POST"
    (JsonBody (JObj [("question", JStr (input st));
                     ("pdf_filename", selectedPDF st);
                     ("model", JStr "gpt-4o-mini")])).

(** The [try] block of [handleSubmit] up to
    [const result = await response.json()]. *)
Definition read_chat_result (pf : Platform) (outcome : FetchOutcome)
  : Completion JsValue :=
  match outcome with
  | FetchRejected t => Throw t
  | FetchResponse ok json _ =>
      if negb ok then throw_detail pf json "Failed to get response" else json
  end.

(** [handleSubmit]; [sent_at] and [replied_at] are the two readings of the
    clock.  [result.answer] is read inside the updater given to
    [setMessages]: on a [null] result nothing is caught or logged, and the
    updater throws at render. *)
Definition handleSubmit (pf : Platform) (env_api_url : option string) (st : State)
    (outcome : FetchOutcome) (sent_at replied_at : Z) : State * list Effect :=
  if blank (input st) || negb (truthy (selectedPDF st)) then (st, [])
  else
    let sent := messages st ++
      [{| role := user; content := JStr (input st); timestamp := sent_at |}] in
    let '(msgs, effs) :=
      match read_chat_result pf outcome with
      | Normal result =>
          match get_prop pf result "answer" with
          | Normal answer =>
              (sent ++ [{| role := assistant; content := answer; timestamp := replied_at |}],
               [])
          | Throw t => (sent, [RenderCrash t])
          end
      | Throw t =>
          (sent ++
             [{| role := assistant;
                 content := JStr ("❌ Error: " +:+
                                  error_message_or "Failed to connect to the backend" t);
                 timestamp := replied_at |}],
           [ConsoleError "Error:" t])
      end in
    ({| messages := msgs; input := EmptyString; isLoading := false;
        uploadedPDFs := uploadedPDFs st; selectedPDF := selectedPDF st;
        isUploading := isUploading st |},
     chat_request env_api_url st :: effs).

(** The state the component is mounted with. *)
Definition initial : State :=
  {| messages := []; input := EmptyString; isLoading := false;
     uploadedPDFs := []; selectedPDF := JStr EmptyString; isUploading := false |}.

(** [onChange] of the text input: [setInput(e.target.value)]. *)
Definition setInput (text : string) (st : State) : State :=
  {| messages := messages st; input := text; isLoading := isLoading st;
     uploadedPDFs := uploadedPDFs st; selectedPDF := selectedPDF st;
     isUploading := isUploading st |}.

(** [onClick] of an entry of the list: [setSelectedPDF(pdf.filename)]. *)
Definition selectPDF (pdf : UploadedPDF) (st : State) : State :=
  {| messages := messages st; input := input st; isLoading := isLoading st;
     uploadedPDFs := uploadedPDFs st; selectedPDF := filename pdf;
     isUploading := isUploading st |}.

Inductive Event : Type :=
| InputChanged (text : string)
| FormSubmitted (outcome : FetchOutcome) (sent_at replied_at : Z)
| FileChosen (file : option string) (upload : FetchOutcome) (now : Z)
| RowClicked (row : nat).

Definition step (pf : Platform) (env_api_url : option string) (st : State) (ev : Event)
  : State :=
  match ev with
  | InputChanged text => setInput text st
  | FormSubmitted outcome sent_at replied_at =>
      fst (handleSubmit pf env_api_url st outcome sent_at replied_at)
  | FileChosen file upload now => fst (handleFileUpload pf env_api_url st file upload now)
  | RowClicked row =>
      match uploadedPDFs st !! row with
      | Some pdf => selectPDF pdf st
      | None => st
      end
  end.

(** The state after a sequence of events, each handler running to its end
    before the next event. *)
Definition run (pf : Platform) (env_api_url : option string) (events : list Event) : State :=
  foldl (step pf env_api_url) initial events.

End PdfChatPage.

(* ================================================================== *)
(** ** The retrieval core                                                *)
(* ================================================================== *)

(** The retrieval core (chunker, vector index, session store, upload
    handler) is Python code that is not among the sources embedded above;
    the definitions of this module follow the specification, sections 3 to
    7. *)
Module Retrieval.

(** Modelled from the spec: the error taxonomy of section 7. *)
Inductive ErrorKind : Type :=
| InvalidArgument
| UnsupportedFormat
| NotFound
| DimensionMismatch
| RetrievalError
| UpstreamError.

(** Modelled from the spec: how an operation of the core fails: with one of
    the typed errors, or with the arithmetic fault that the numeric
    semantics of section 4.3 rule out. *)
Inductive Failure : Type :=
| Typed (e : ErrorKind)
| ZeroDivision.

(** Modelled from the spec: the outcome of an operation of the core. *)
Inductive Result (A : Type) : Type :=
| Ok (a : A)
| Fail (f : Failure).
Arguments Ok {A} a.
Arguments Fail {A} f.

#[global] Instance Result_ret : MRet Result := fun A a => Ok a.
#[global] Instance Result_bind : MBind Result :=
  fun A B k r => match r with Ok a => k a | Fail f => Fail f end.

(** Modelled from the spec: a sequence of fallible steps fails at its first
    failure. *)
Fixpoint mapM {A B} (f : A -> Result B) (l : list A) : Result (list B) :=
  match l with
  | [] => Ok []
  | x :: l' => y ← f x; ys ← mapM f l'; mret (y :: ys)
  end.

(** Modelled from the spec: the Chunk of section 3; its text is a sequence
    of characters, one [ascii] each. *)
Record Chunk : Type := {
  id : nat;
  text : string;
  source_offset : nat
}.

(** *** Chunker *)

(** Modelled from the spec: the window loop of the chunker (section 4.1),
    which is not among the sources.  A window of [chunk_size] characters is
    taken at [start]; the loop stops when that window reaches the end of
    the text, otherwise [start] advances by [step].  [fuel] bounds the
    number of windows; [String.length text] is always enough. *)
Fixpoint windows (fuel start next_id : nat) (txt : string) (chunk_size step : nat)
  : list Chunk :=
  match fuel with
  | 0 => []
  | S fuel' =>
      if String.length txt <=? start then []
      else
        let c := {| id := next_id;
                    text := substring start chunk_size txt;
                    source_offset := start |} in
        if String.length txt <=? start + chunk_size then [c]
        else c :: windows fuel' (start + step) (S next_id) txt chunk_size step
  end.

(** Modelled from the spec: [split(text, chunk_size, overlap)] of section
    4.1, with its argument check. *)
Definition split (txt : string) (chunk_size overlap : nat) : Result (list Chunk) :=
  if (0 <? chunk_size) && (overlap <? chunk_size) then
    Ok (windows (String.length txt) 0 0 txt chunk_size (chunk_size - overlap))
  else Fail (Typed InvalidArgument).

(** Modelled from the spec: the offsets of the text a chunk covers
    (section 8). *)
Definition covers (c : Chunk) (j : nat) : Prop :=
  source_offset c <= j < source_offset c + String.length (text c).

(** *** Embeddings and cosine similarity *)

(** Modelled from the spec: an embedding is a sequence of numbers; the
    scores are taken in exact real arithmetic. *)
Definition Embedding : Type := list R.

(** Modelled from the spec: [dot(a,b)] of the score formula. *)
Fixpoint dot (a b : Embedding) : R :=
  match a, b with
  | x :: a', y :: b' => (x * y + dot a' b')%R
  | _, _ => 0%R
  end.

(** Modelled from the spec: [norm(a)] of the score formula. *)
Definition norm (a : Embedding) : R := sqrt (dot a a).

(** Modelled from the spec: the division of the score formula, made to
    report a zero divisor instead of computing with it. *)
Definition checked_div (x y : R) : Result R :=
  if Req_dec_T y 0 then Fail ZeroDivision else Ok (x / y)%R.

(** Modelled from the spec: [score = dot(a,b) / (norm(a) * norm(b))] of
    section 4.3 with its numeric semantics: a zero norm gives score 0
    instead of a division; mismatched dimensions are fatal. *)
Definition cosine_similarity (a b : Embedding) : Result R :=
  if negb (length a =? length b) then Fail (Typed DimensionMismatch)
  else
    let d := (norm a * norm b)%R in
    if Req_dec_T d 0 then Ok 0%R else checked_div (dot a b) d.

(** Modelled from the spec: the score of section 4.3 as a number, for
    statements about rankings. *)
Definition similarity (a b : Embedding) : R :=
  if Req_dec_T (norm a * norm b) 0 then 0%R
  else (dot a b / (norm a * norm b))%R.

(** *** Vector index *)

(** Modelled from the spec: the VectorIndex of section 3; the entries are
    kept in insertion order, which the tie-break of [search] refers to. *)
Record VectorIndex : Type := {
  entries : list (Chunk * Embedding)
}.

(** Modelled from the spec: the index a session starts from. *)
Definition empty_index : VectorIndex := {| entries := [] |}.

(** Modelled from the spec: the index size that [k] is clamped to. *)
Definition size (idx : VectorIndex) : nat := length (entries idx).

(** Modelled from the spec: the invariant of section 3, all embeddings of
    one index share the dimension (here: that of the first one). *)
Definition same_dimension (embs : list Embedding) : bool :=
  match embs with
  | [] => true
  | e :: rest => forallb (fun e' => length e' =? length e) rest
  end.

(** Modelled from the spec: [insert] of section 4.3. *)
Definition insert (cs : list Chunk) (embs : list Embedding) (idx : VectorIndex)
  : Result VectorIndex :=
  if (length cs =? length embs) && same_dimension (map snd (entries idx) ++ embs)
  then Ok {| entries := entries idx ++ zip cs embs |}
  else Fail (Typed DimensionMismatch).

(** Modelled from the spec: the ranking of [search], highest score first
    and stable.  The new element moves past the elements whose key is
    strictly larger and stays ahead of those it ties with. *)
Fixpoint rank_insert {A} (key : A -> R) (x : A) (l : list A) : list A :=
  match l with
  | [] => [x]
  | y :: l' =>
      if Rlt_dec (key x) (key y) then y :: rank_insert key x l'
      else x :: y :: l'
  end.

(** Modelled from the spec: stable sort by non-increasing key. *)
Definition rank {A} (key : A -> R) (l : list A) : list A :=
  foldr (rank_insert key) [] l.

(** Modelled from the spec: the score of one stored entry against the
    query. *)
Definition score_entry (query : Embedding) (entry : Chunk * Embedding)
  : Result (Chunk * R) :=
  s ← cosine_similarity query (snd entry); mret (fst entry, s).

(** Modelled from the spec: [search(query, k)] of section 4.3: every entry
    is scored, the scores are ranked highest first with ties in insertion
    order, and [k] is clamped to the index size. *)
Definition search (query : Embedding) (k : nat) (idx : VectorIndex)
  : Result (list (Chunk * R)) :=
  scored ← mapM (score_entry query) (entries idx);
  mret (take (Nat.min k (size idx)) (rank snd scored)).

(** Modelled from the spec: [search] over the scores as the arithmetic of
    an implementation computes them.  Section 3 makes the components of an
    embedding floating-point numbers, so a computed score can differ from
    the exact quotient by rounding; [score] stands for the computed score.
    [search] is the instance at the exact score. *)
Definition search_with (score : Embedding -> Embedding -> Result R)
    (query : Embedding) (k : nat) (idx : VectorIndex) : Result (list (Chunk * R)) :=
  scored ← mapM (fun entry => s ← score query (snd entry); mret (fst entry, s))
                (entries idx);
  mret (take (Nat.min k (size idx)) (rank snd scored)).

(** Modelled from the spec: the scored entries in insertion order. *)
Definition scored_entries (query : Embedding) (idx : VectorIndex) : list (Chunk * R) :=
  map (fun entry => (fst entry, similarity query (snd entry))) (entries idx).

(** *** Session store *)

(** Modelled from the spec: what an upload answers and what the session
    listing shows, [{ session_id, filename, chunk_count }] (section 6). *)
Record SessionSummary : Type := {
  session_id : string;
  filename : string;
  chunk_count : nat
}.

(** Modelled from the spec: the Session of section 3, which owns its index. *)
Record Session : Type := {
  summary : SessionSummary;
  index : VectorIndex
}.

(** Modelled from the spec: [create] of section 4.4; the identifier is one
    the store does not hold yet. *)
Definition create (fname : string) (idx : VectorIndex) (count : nat)
    (sessions : gmap string Session) : string * gmap string Session :=
  let sid := fresh (dom sessions) in
  (sid,
   <[sid := {| summary := {| session_id := sid; filename := fname; chunk_count := count |};
               index := idx |}]> sessions).

(** Modelled from the spec: [get] of section 4.4. *)
Definition get (sid : string) (sessions : gmap string Session) : Result Session :=
  match sessions !! sid with
  | Some s => Ok s
  | None => Fail (Typed NotFound)
  end.

(** Modelled from the spec: [delete] of section 4.4. *)
Definition delete_session (sid : string) (sessions : gmap string Session)
  : Result (gmap string Session) :=
  match sessions !! sid with
  | Some _ => Ok (delete sid sessions)
  | None => Fail (Typed NotFound)
  end.

(** *** Embedder client and upload *)

(** Modelled from the spec: the work an upload performs (section 2), in
    the order it is performed. *)
Inductive Work : Type :=
| Extracted
| Chunked (count : nat)
| EmbedCall (batch : list string).

(** Modelled from the spec: the session store together with the record of
    the work done. *)
Record World : Type := {
  store : gmap string Session;
  log : list Work
}.

(** Modelled from the spec: the sub-batches of [embed_batch] (section 4.2),
    at most [max] texts each, in order. *)
Fixpoint sub_batches (fuel max : nat) (texts : list string) : list (list string) :=
  match fuel with
  | 0 => []
  | S fuel' =>
      match texts with
      | [] => []
      | _ => take max texts :: sub_batches fuel' max (drop max texts)
      end
  end.

Section Upload.

(** Modelled from the spec: the collaborators the core does not implement
    (section 6): text extraction and the embedding endpoint, whose answer
    may depend on the calls made so far (a transient failure can succeed
    when retried). *)
Variable extract_text : list Byte.byte -> Result string.
Variable provider : list Work -> list string -> option (list Embedding).

Variables chunk_size overlap : nat.
Variable max_batch : positive.
Variable max_attempts : nat.

(** Modelled from the spec: one sub-batch of [embed_batch] (section 4.2):
    bounded retries, then a terminal error; an answer that does not give
    one embedding per text is a failure of the pipeline. *)
Fixpoint embed_with_retry (attempts : nat) (batch : list string) (done : list Work)
  : list Work * Result (list Embedding) :=
  match attempts with
  | 0 => (done, Fail (Typed UpstreamError))
  | S attempts' =>
      let done' := done ++ [EmbedCall batch] in
      match provider done batch with
      | Some embs =>
          if length embs =? length batch then (done', Ok embs)
          else (done', Fail (Typed RetrievalError))
      | None => embed_with_retry attempts' batch done'
      end
  end.

(** Modelled from the spec: the sub-batches are embedded in order; the
    first failure ends the call. *)
Fixpoint embed_batches (batches : list (list string)) (done : list Work)
  : list Work * Result (list Embedding) :=
  match batches with
  | [] => (done, Ok [])
  | b :: rest =>
      match embed_with_retry max_attempts b done with
      | (done1, Ok embs) =>
          match embed_batches rest done1 with
          | (done2, Ok more) => (done2, Ok (embs ++ more))
          | (done2, Fail f) => (done2, Fail f)
          end
      | (done1, Fail f) => (done1, Fail f)
      end
  end.

(** Modelled from the spec: [embed_batch] of section 4.2: order
    preserving, fails as a whole when one sub-batch fails. *)
Definition embed_batch (texts : list string) (done : list Work)
  : list Work * Result (list Embedding) :=
  embed_batches (sub_batches (length texts) (Pos.to_nat max_batch) texts) done.

(** Modelled from the spec: a failed step changes the record of work
    only. *)
Definition with_log (w : World) (done : list Work) : World :=
  {| store := store w; log := done |}.

(** Modelled from the spec: the upload of sections 2, 6 and 7: format
    check, extraction, chunking, embedding, indexing, and only then the
    creation of the session. *)
Definition upload (fname : string) (bytes : list Byte.byte) (w : World)
  : World * Result SessionSummary :=
  if negb (is_pdf_name fname) then (w, Fail (Typed UnsupportedFormat))
  else
    let done1 := log w ++ [Extracted] in
    match extract_text bytes with
    | Fail f => (with_log w done1, Fail f)
    | Ok txt =>
        match split txt chunk_size overlap with
        | Fail f => (with_log w done1, Fail f)
        | Ok cs =>
            let done2 := done1 ++ [Chunked (length cs)] in
            match embed_batch (map text cs) done2 with
            | (done3, Fail f) => (with_log w done3, Fail f)
            | (done3, Ok embs) =>
                match insert cs embs empty_index with
                | Fail f => (with_log w done3, Fail f)
                | Ok idx =>
                    let '(sid, sessions) := create fname idx (length cs) (store w) in
                    ({| store := sessions; log := done3 |},
                     Ok {| session_id := sid; filename := fname;
                           chunk_count := length cs |})
                end
            end
        end
    end.

End Upload.

End Retrieval.

(* ================================================================== *)
(** ** Vocabulary of the statements                                      *)
(* ================================================================== *)

(** A file name passes the guard of the upload handlers exactly when it
    consists of some stem followed by [.pdf] in any letter case. *)
Definition has_pdf_extension (name : string) : Prop :=
  exists stem ext, name = stem +:+ ext /\ toLowerCase ext = ".pdf".

#[global] Instance R_eq_dec : EqDecision R := Req_dec_T.

(** A list of scored items whose scores never increase. *)
Definition non_increasing {A} (key : A -> R) (l : list A) : Prop :=
  StronglySorted (fun x y => (key y <= key x)%R) l.

(** The items of a list that carry the score [s], in the order of the list. *)
Definition with_score {A} (key : A -> R) (s : R) (l : list A) : list A :=
  filter (fun x => key x = s) l.

(** All stored embeddings have the dimension of the query. *)
Definition matches_dimension (query : Retrieval.Embedding) (idx : Retrieval.VectorIndex) : Prop :=
  Forall (fun entry => length (snd entry) = length query) (Retrieval.entries idx).

Definition sample_chunk (n : nat) (t : string) : Retrieval.Chunk :=
  {| Retrieval.id := n; Retrieval.text := t; Retrieval.source_offset := 15 * n |}.

(** Two stored chunks whose embeddings point the same way. *)
Definition sample_index : Retrieval.VectorIndex :=
  {| Retrieval.entries :=
       [(sample_chunk 0 "Hello world. This is", [1%R; 0%R]);
        (sample_chunk 1 "is is a test documen", [2%R; 0%R])] |}.

(** An upload of the scenario document, with sub-batches of two texts and
    two attempts each, against an embedding endpoint that answers its first
    [answered] calls and fails afterwards. *)
Definition sample_upload (fname : string) (answered : nat)
  : Retrieval.World * Retrieval.Result Retrieval.SessionSummary :=
  Retrieval.upload
    (fun _ => Retrieval.Ok "Hello world. This is a test document.")
    (fun done batch =>
       if (length done <? answered)%nat then Some (map (fun _ => [1%R; 0%R]) batch)
       else None)
    20 5 2%positive 2 fname []
    {| Retrieval.store := ∅; Retrieval.log := [] |}.



(** In-order concatenation of text fragments. *)
Definition concat_fragments (fragments : list string) : string :=
  foldr String.append EmptyString fragments.

(** The network requests of an effect trace. *)
Definition requests (effs : list Effect) : list Effect := filter is_fetch effs.

(** The keys of the JSON object a request carries. *)
Definition body_keys (e : Effect) : list string :=
  match e with
  | Fetch _ _ (JsonBody (JObj fields)) => map fst fields
  | _ => []
  end.

(** The upload response with the field names the specification gives it. *)
Definition spec_upload_response (sid fname : string) (n : Z) : JsValue :=
  JObj [("session_id", JStr sid); ("filename", JStr fname); ("chunk_count", JNum n)].

(** The retrieval-mode chat response with the field names the specification
    gives it. *)
Definition spec_chat_response (answer : string) (used : Z) : JsValue :=
  JObj [("answer", JStr answer); ("relevant_chunks_used", JNum used)].

(** A platform for running the handlers on concrete inputs: bytes decode as
    one character each. *)
Definition sample_platform : Platform :=
  {| TypeError_message := fun name => "Cannot read properties of null (reading '" +:+ name +:+ "')";
     TextDecoder_decode := string_of_list_byte;
     ToPrimitive_TypeError := "Cannot convert object to primitive value";
     Number_toString := string_of_Z |}.

Definition sample_session : RagPage.Session :=
  {| RagPage.session_id := JStr "s1";
     RagPage.filename := JStr "a.pdf";
     RagPage.chunks_count := JNum 3 |}.

Definition sample_rag_state : RagPage.State :=
  {| RagPage.messages := []; RagPage.input := "What is this about?";
     RagPage.isLoading := false; RagPage.currentSession := Some sample_session;
     RagPage.sessions := JArr []; RagPage.uploading := false;
     RagPage.chatMode := RagPage.rag |}.

Definition sample_pdf_state : PdfChatPage.State :=
  {| PdfChatPage.messages := []; PdfChatPage.input := "What is this about?";
     PdfChatPage.isLoading := false; PdfChatPage.uploadedPDFs := [];
     PdfChatPage.selectedPDF := JStr "a.pdf"; PdfChatPage.isUploading := false |}.

Definition sample_chat_state : ChatPage.State :=
  {| ChatPage.messages := []; ChatPage.input := "hello"; ChatPage.isLoading := false |}.

(** The session page is in RAG mode exactly when it has a current session. *)
Definition mode_matches_session (st : RagPage.State) : Prop :=
  RagPage.chatMode st = RagPage.rag <-> is_Some (RagPage.currentSession st).

(** The file the pdf-chat page would chat with is none (the empty string) or
    the name of a row of its list. *)
Definition selection_is_listed (st : PdfChatPage.State) : Prop :=
  PdfChatPage.selectedPDF st = JStr EmptyString \/
  exists pdf, pdf ∈ PdfChatPage.uploadedPDFs st /\
              PdfChatPage.selectedPDF st = PdfChatPage.filename pdf.

(** A string without the character [sep]. *)
Fixpoint free_of (sep : ascii) (s : string) : bool :=
  match s with
  | EmptyString => true
  | String a rest => negb (Ascii.eqb a sep) && free_of sep rest
  end.

Definition sample_key_state : ChatPageWithKey.State :=
  {| ChatPageWithKey.messages := []; ChatPageWithKey.input := "hello";
     ChatPageWithKey.isLoading := false; ChatPageWithKey.apiKey := "sk-test";
     ChatPageWithKey.showApiKeyInput := false |}.

Definition sample_stream : BodyStream :=
  {| chunks := [[Byte.x48; Byte.x69]; []; [Byte.x21]]; failure := None |}.

Definition sample_broken_stream : BodyStream :=
  {| chunks := [[Byte.x48; Byte.x69]]; failure := Some (ErrorObj "network error") |}.

(* ================================================================== *)
(** * Properties                                                        *)
(* ================================================================== *)

(** ** Strings *)

Lemma str_app_cons (a : ascii) (s1 s2 : string) :
  String a s1 +:+ s2 = String a (s1 +:+ s2).
Proof. reflexivity. Qed.

Lemma str_app_nil_l (s : string) : EmptyString +:+ s = s.
Proof. reflexivity. Qed.

Lemma str_app_nil_r (s : string) : s +:+ EmptyString = s.
Proof.
  induction s as [|a s IH]; [reflexivity|]. now rewrite str_app_cons, IH.
Qed.

Lemma str_app_assoc (s1 s2 s3 : string) : (s1 +:+ s2) +:+ s3 = s1 +:+ (s2 +:+ s3).
Proof.
  induction s1 as [|a s1 IH]; [reflexivity|]. now rewrite !str_app_cons, IH.
Qed.

Lemma str_length_app (s1 s2 : string) :
  String.length (s1 +:+ s2) = String.length s1 + String.length s2.
Proof.
  induction s1 as [|a s1 IH]; [reflexivity|]. rewrite str_app_cons. simpl. now rewrite IH.
Qed.

Lemma toLowerCase_length (s : string) : String.length (toLowerCase s) = String.length s.
Proof. induction s as [|a s IH]; simpl; [reflexivity | now rewrite IH]. Qed.

Lemma toLowerCase_app (s1 s2 : string) :
  toLowerCase (s1 +:+ s2) = toLowerCase s1 +:+ toLowerCase s2.
Proof.
  induction s1 as [|a s1 IH]; [reflexivity|].
  rewrite str_app_cons. simpl. now rewrite str_app_cons, IH.
Qed.

Lemma substring_all (s : string) : substring 0 (String.length s) s = s.
Proof. induction s as [|a s IH]; simpl; [reflexivity | now rewrite IH]. Qed.

Lemma substring_app_suffix (s1 s2 : string) :
  substring (String.length s1) (String.length s2) (s1 +:+ s2) = s2.
Proof.
  induction s1 as [|a s1 IH]; [apply substring_all|].
  rewrite str_app_cons. simpl. exact IH.
Qed.

Lemma substring_length (s : string) (n m : nat) :
  String.length (substring n m s) = Nat.min m (String.length s - n).
Proof.
  revert n m. induction s as [|a s IH]; intros [|n] [|m]; simpl; try reflexivity.
  - now rewrite IH, Nat.sub_0_r.
  - apply IH.
  - apply IH.
Qed.

(** Cutting a string at [k] and gluing the two parts gives it back. *)
Lemma substring_cut (s : string) (k : nat) :
  k <= String.length s ->
  s = substring 0 k s +:+ substring k (String.length s - k) s.
Proof.
  revert k. induction s as [|a s IH]; intros [|k] Hk; simpl in *; try lia.
  - reflexivity.
  - now rewrite substring_all.
  - rewrite str_app_cons. f_equal. apply IH. lia.
Qed.

Lemma toLowerCase_substring (s : string) (n m : nat) :
  toLowerCase (substring n m s) = substring n m (toLowerCase s).
Proof.
  revert n m. induction s as [|a s IH]; intros [|n] [|m]; simpl; try reflexivity.
  - now rewrite IH.
  - apply IH.
  - apply IH.
Qed.

Lemma is_pdf_name_iff (name : string) :
  is_pdf_name name = true <-> has_pdf_extension name.
Proof.
  unfold is_pdf_name, endsWith, has_pdf_extension.
  rewrite toLowerCase_length. split.
  - intros H. apply andb_true_iff in H as [Hlen Heq].
    apply Nat.leb_le in Hlen. apply String.eqb_eq in Heq.
    change (String.length ".pdf") with 4 in *.
    exists (substring 0 (String.length name - 4) name),
           (substring (String.length name - 4) 4 name). split.
    + pose proof (substring_cut name (String.length name - 4)) as Hcut.
      replace (String.length name - (String.length name - 4)) with 4 in Hcut by lia.
      apply Hcut. lia.
    + now rewrite toLowerCase_substring.
  - intros (stem & ext & -> & Hext).
    assert (Hl : String.length ext = 4).
    { rewrite <- (toLowerCase_length ext), Hext. reflexivity. }
    change (String.length ".pdf") with 4.
    rewrite str_length_app, Hl. apply andb_true_iff. split.
    + apply Nat.leb_le. lia.
    + apply String.eqb_eq.
      rewrite toLowerCase_app, <- Hext.
      replace (String.length stem + 4 - 4) with (String.length (toLowerCase stem))
        by (rewrite toLowerCase_length; lia).
      replace 4 with (String.length (toLowerCase ext))
        by (rewrite toLowerCase_length; exact Hl).
      apply substring_app_suffix.
Qed.

Lemma not_pdf_name (name : string) :
  ~ has_pdf_extension name -> is_pdf_name name = false.
Proof.
  intros H. destruct (is_pdf_name name) eqn:E; [|reflexivity].
  exfalso. apply H, is_pdf_name_iff, E.
Qed.

(** ** The streaming reader *)

Lemma set_last_content_snoc (acc : string) (prefix : list Message) (m : Message) :
  set_last_content acc (prefix ++ [m]) =
  prefix ++ [{| role := role m; content := JStr acc |}].
Proof.
  unfold set_last_content. rewrite length_app. simpl.
  replace (length prefix + 1 - 1) with (length prefix + 0) by lia.
  now rewrite alter_app_r.
Qed.

(** The loop leaves every earlier message alone and ends with the
    accumulated text in the last one. *)
Lemma read_loop_snoc (pf : Platform) (pending : list (list Byte.byte)) :
  forall (acc : string) (prefix : list Message) (m : Message),
    Streaming.read_loop pf pending acc (prefix ++ [m]) =
    (prefix ++
       [match pending with
        | [] => m
        | _ => {| role := role m;
                  content := JStr (acc +:+ concat_fragments (map (TextDecoder_decode pf) pending)) |}
        end],
     acc +:+ concat_fragments (map (TextDecoder_decode pf) pending)).
Proof.
  induction pending as [|value rest IH]; intros acc prefix m; simpl.
  - now rewrite str_app_nil_r.
  - rewrite set_last_content_snoc, IH. simpl.
    rewrite str_app_assoc. destruct rest; simpl; [|reflexivity].
    now rewrite !str_app_nil_r.
Qed.

Lemma consume_stream (pf : Platform) (json : Completion JsValue)
    (stream : BodyStream) (msgs : list Message) :
  fst (Streaming.consume_response pf (FetchResponse true json (Some stream)) msgs) =
  msgs ++ [assistant_says (concat_fragments (map (TextDecoder_decode pf) (chunks stream)))].
Proof.
  unfold Streaming.consume_response. simpl.
  rewrite read_loop_snoc.
  assert (E : match chunks stream with
              | [] => assistant_says EmptyString
              | _ => {| role := role (assistant_says EmptyString);
                        content := JStr (EmptyString +:+
                          concat_fragments (map (TextDecoder_decode pf) (chunks stream))) |}
              end =
              assistant_says (concat_fragments (map (TextDecoder_decode pf) (chunks stream)))).
  { destruct (chunks stream); reflexivity. }
  rewrite E. now destruct (failure stream).
Qed.

(** C9. In the streaming handler of the general chat page, when the body
    stream delivers a finite sequence of chunks and then completes, the
    messages shown are the earlier ones, the user's message, and one
    assistant message whose text is the in-order concatenation of the
    decoded fragments: nothing is dropped, duplicated or reordered. *)
Theorem streaming_reply_is_concatenation (pf : Platform) (st : ChatPage.State)
    (json : Completion JsValue) (stream : BodyStream) :
  blank (ChatPage.input st) = false ->
  failure stream = None ->
  ChatPage.messages (fst (ChatPage.handleSubmit pf st (FetchResponse true json (Some stream)))) =
  ChatPage.messages st ++
    [user_says (ChatPage.input st);
     assistant_says (concat_fragments (map (TextDecoder_decode pf) (chunks stream)))].
Proof.
  intros Hinput Hdone. unfold ChatPage.handleSubmit. rewrite Hinput.
  pose proof (consume_stream pf json stream
                (ChatPage.messages st ++ [user_says (ChatPage.input st)])) as Hmsgs.
  destruct (Streaming.consume_response pf _ _) as [msgs outcome] eqn:E.
  simpl in Hmsgs. subst msgs.
  assert (Hout : outcome = Normal tt).
  { unfold Streaming.consume_response in E. simpl in E.
    destruct (Streaming.read_loop pf _ _ _) as [m' a'].
    rewrite Hdone in E. now inversion E. }
  subst outcome. simpl. now rewrite <- app_assoc.
Qed.

Lemma streaming_reply_is_concatenation_witness :
  ChatPage.messages
    (fst (ChatPage.handleSubmit sample_platform sample_chat_state
            (FetchResponse true (Throw NonError)
               (Some {| chunks := [[Byte.x48; Byte.x69]; []; [Byte.x21]]; failure := None |})))) =
  [user_says "hello"; assistant_says "Hi!"].
Proof.
  exact (streaming_reply_is_concatenation sample_platform sample_chat_state
           (Throw NonError)
           {| chunks := [[Byte.x48; Byte.x69]; []; [Byte.x21]]; failure := None |}
           eq_refl eq_refl).
Defined.


(** ** The upload guard of the pages *)

(** C10. When the selected file's name does not end in [.pdf] (in any
    letter case), [handleFileUpload] of the session page and of the pdf-chat
    page returns after the alert: the component state, with its messages,
    session list and current session, is the one it started from, and the
    trace holds no network request. *)
Theorem non_pdf_selection_changes_nothing (pf : Platform) (name : string)
    (st : RagPage.State) (read : FileReadOutcome) (upload reload : FetchOutcome)
    (env_api_url : option string) (st2 : PdfChatPage.State) (upload2 : FetchOutcome)
    (now : Z) :
  ~ has_pdf_extension name ->
  let r := RagPage.handleFileUpload pf st (Some name) read upload reload in
  let r2 := PdfChatPage.handleFileUpload pf env_api_url st2 (Some name) upload2 now in
  (fst r = st /\ snd r = [Alert "Please select a PDF file"] /\ requests (snd r) = []) /\
  (fst r2 = st2 /\ snd r2 = [Alert "Please select a PDF file."] /\ requests (snd r2) = []).
Proof.
  intros Hname. apply not_pdf_name in Hname.
  unfold RagPage.handleFileUpload, PdfChatPage.handleFileUpload.
  rewrite Hname. simpl. repeat split; reflexivity.
Qed.

Lemma notes_txt_has_no_pdf_extension : ~ has_pdf_extension "notes.txt".
Proof.
  intros H. apply is_pdf_name_iff in H. vm_compute in H. discriminate.
Qed.

Lemma non_pdf_selection_changes_nothing_witness :
  let r := RagPage.handleFileUpload sample_platform sample_rag_state (Some "notes.txt")
             (ReadLoaded "data:text/plain;base64,aGk=")
             (FetchResponse true (Normal (spec_upload_response "s2" "notes.txt" 1)) None)
             (FetchRejected NonError) in
  let r2 := PdfChatPage.handleFileUpload sample_platform None sample_pdf_state
              (Some "notes.txt") (FetchRejected NonError) 0 in
  (fst r = sample_rag_state /\ snd r = [Alert "Please select a PDF file"] /\
   requests (snd r) = []) /\
  (fst r2 = sample_pdf_state /\ snd r2 = [Alert "Please select a PDF file."] /\
   requests (snd r2) = []).
Proof.
  exact (non_pdf_selection_changes_nothing sample_platform "notes.txt" sample_rag_state
           (ReadLoaded "data:text/plain;base64,aGk=")
           (FetchResponse true (Normal (spec_upload_response "s2" "notes.txt" 1)) None)
           (FetchRejected NonError) None sample_pdf_state (FetchRejected NonError) 0
           notes_txt_has_no_pdf_extension).
Defined.

(** ** The upload response as the session page reads it *)

Lemma loadSessions_frame (pf : Platform) (st : RagPage.State) (outcome : FetchOutcome) :
  let st' := fst (RagPage.loadSessions pf st outcome) in
  RagPage.messages st' = RagPage.messages st /\
  RagPage.currentSession st' = RagPage.currentSession st /\
  RagPage.chatMode st' = RagPage.chatMode st /\
  RagPage.uploading st' = RagPage.uploading st.
Proof.
  unfold RagPage.loadSessions. destruct outcome as [t | ok json body]; simpl; [tauto|].
  destruct ok; simpl; [|tauto].
  destruct json as [data|t]; simpl; [|tauto].
  destruct (get_prop pf data "sessions"); simpl; tauto.
Qed.

(** C7, as the code has it. After a successful upload whose response body
    is a JSON object, the session page has read exactly three fields of it,
    [session_id], [filename] and [chunks_count], and keeps them as the
    current session; it switches to RAG mode and turns the upload flag off.
    Its only message reports that file name and that count when both can be
    converted to text, and the conversion error otherwise. *)
Theorem upload_response_fields_read (pf : Platform) (st : RagPage.State) (name : string)
    (dataUrl : string) (fields : list (string * JsValue)) (body : option BodyStream)
    (reload : FetchOutcome) :
  has_pdf_extension name ->
  let st' := fst (RagPage.handleFileUpload pf st (Some name) (ReadLoaded dataUrl)
                    (FetchResponse true (Normal (JObj fields)) body) reload) in
  RagPage.currentSession st' =
    Some {| RagPage.session_id := lookup_field "session_id" fields;
            RagPage.filename := lookup_field "filename" fields;
            RagPage.chunks_count := lookup_field "chunks_count" fields |} /\
  RagPage.chatMode st' = RagPage.rag /\
  RagPage.uploading st' = false /\
  RagPage.messages st' =
    [assistant_says
       match to_string pf (lookup_field "filename" fields),
             to_string pf (lookup_field "chunks_count" fields) with
       | Normal fname, Normal count =>
           "PDF " +:+ dquote +:+ fname +:+ dquote +:+
           " uploaded successfully! I've processed " +:+ count +:+
           " text chunks. You can now ask me questions about this document."
       | Throw t, _ | Normal _, Throw t =>
           "Error uploading PDF: " +:+ error_message_or "Unknown error" t
       end].
Proof.
  intros Hname. apply is_pdf_name_iff in Hname.
  unfold RagPage.handleFileUpload, RagPage.welcome_text. rewrite Hname. simpl.
  destruct (to_string pf (lookup_field "filename" fields)) as [fname|t]; simpl;
    [|repeat split; reflexivity].
  destruct (to_string pf (lookup_field "chunks_count" fields)) as [count|t]; simpl;
    [|repeat split; reflexivity].
  match goal with
  | |- context [RagPage.loadSessions pf ?s reload] =>
      pose proof (loadSessions_frame pf s reload) as Hframe;
      destruct (RagPage.loadSessions pf s reload) as [st2 effs]
  end.
  simpl in *. destruct Hframe as (Hm & Hc & Hmode & _).
  rewrite Hm, Hc, Hmode. repeat split; reflexivity.
Qed.

Lemma a_pdf_has_pdf_extension : has_pdf_extension "Report.PDF".
Proof. apply is_pdf_name_iff. reflexivity. Qed.

Lemma upload_response_fields_read_witness :
  let st' := fst (RagPage.handleFileUpload sample_platform sample_rag_state
                    (Some "Report.PDF") (ReadLoaded "data:application/pdf;base64,JVBERg==")
                    (FetchResponse true
                       (Normal (JObj [("session_id", JStr "s7"); ("filename", JStr "Report.PDF");
                                      ("chunks_count", JNum 12)])) None)
                    (FetchRejected NonError)) in
  RagPage.currentSession st' =
    Some {| RagPage.session_id := JStr "s7"; RagPage.filename := JStr "Report.PDF";
            RagPage.chunks_count := JNum 12 |} /\
  RagPage.chatMode st' = RagPage.rag /\
  RagPage.uploading st' = false /\
  RagPage.messages st' =
    [assistant_says
       ("PDF " +:+ dquote +:+ "Report.PDF" +:+ dquote +:+
        " uploaded successfully! I've processed " +:+ "12" +:+
        " text chunks. You can now ask me questions about this document.")].
Proof.
  exact (upload_response_fields_read sample_platform sample_rag_state "Report.PDF"
           "data:application/pdf;base64,JVBERg=="
           [("session_id", JStr "s7"); ("filename", JStr "Report.PDF");
            ("chunks_count", JNum 12)] None (FetchRejected NonError)
           a_pdf_has_pdf_extension).
Defined.

(** C7, as stated, fails on the session page: a response carrying the
    chunk count under the name [chunk_count] leaves the count of the current
    session undefined. *)
Lemma upload_response_chunk_count_not_read :
  ~ (forall (sid fname : string) (n : Z),
       RagPage.currentSession
         (fst (RagPage.handleFileUpload sample_platform sample_rag_state (Some "a.pdf")
                 (ReadLoaded "data:application/pdf;base64,JVBERg==")
                 (FetchResponse true (Normal (spec_upload_response sid fname n)) None)
                 (FetchRejected NonError))) =
       Some {| RagPage.session_id := JStr sid; RagPage.filename := JStr fname;
               RagPage.chunks_count := JNum n |}).
Proof.
  intros H. specialize (H "s1" "a.pdf" 3%Z). vm_compute in H. discriminate H.
Qed.

Example upload_response_chunk_count_undefined :
  RagPage.currentSession
    (fst (RagPage.handleFileUpload sample_platform sample_rag_state (Some "a.pdf")
            (ReadLoaded "data:application/pdf;base64,JVBERg==")
            (FetchResponse true (Normal (spec_upload_response "s1" "a.pdf" 3)) None)
            (FetchRejected NonError))) =
  Some {| RagPage.session_id := JStr "s1"; RagPage.filename := JStr "a.pdf";
          RagPage.chunks_count := JUndefined |}.
Proof. reflexivity. Qed.

(** ** Retrieval-mode chat as the pages perform it *)

(** C8, as the code has it. On the session page a retrieval-mode chat call
    posts [{ session_id, user_message, model }] to [/api/rag/chat], and for a
    successful JSON object without an [error] the text shown is its
    [content], else its [message], else a fixed notice.  On the pdf-chat page
    the call posts [{ question, pdf_filename, model }] to [/api/pdf_chat] and
    the text shown for a successful JSON object is its [answer]. *)
Theorem rag_chat_exchange (pf : Platform)
    (st : RagPage.State) (session : RagPage.Session)
    (fields : list (string * JsValue)) (body : option BodyStream)
    (env_api_url : option string) (st2 : PdfChatPage.State)
    (fields2 : list (string * JsValue)) (body2 : option BodyStream)
    (sent_at replied_at : Z) :
  RagPage.chatMode st = RagPage.rag ->
  RagPage.currentSession st = Some session ->
  blank (RagPage.input st) = false ->
  truthy (lookup_field "error" fields) = false ->
  blank (PdfChatPage.input st2) = false ->
  truthy (PdfChatPage.selectedPDF st2) = true ->
  let r := RagPage.handleSubmit pf st (FetchResponse true (Normal (JObj fields)) body) in
  let r2 := PdfChatPage.handleSubmit pf env_api_url st2
              (FetchResponse true (Normal (JObj fields2)) body2) sent_at replied_at in
  (snd r =
     [Fetch "/api/rag/chat" "POST"
        (JsonBody (JObj [("session_id", RagPage.session_id session);
                         ("user_message", JStr (RagPage.input st));
                         ("model", JStr "gpt-4.1-mini")]))] /\
   RagPage.messages (fst r) =
     RagPage.messages st ++
       [user_says (RagPage.input st);
        {| role := assistant;
           content := js_or (js_or (lookup_field "content" fields)
                                   (lookup_field "message" fields))
                            (JStr "No response content") |}]) /\
  (snd r2 =
     [Fetch (PdfChatPage.apiUrl env_api_url +:+ "/api/pdf_chat") "POST"
        (JsonBody (JObj [("question", JStr (PdfChatPage.input st2));
                         ("pdf_filename", PdfChatPage.selectedPDF st2);
                         ("model", JStr "gpt-4o-mini")]))] /\
   PdfChatPage.messages (fst r2) =
     PdfChatPage.messages st2 ++
       [{| PdfChatPage.role := user; PdfChatPage.content := JStr (PdfChatPage.input st2);
           PdfChatPage.timestamp := sent_at |};
        {| PdfChatPage.role := assistant;
           PdfChatPage.content := lookup_field "answer" fields2;
           PdfChatPage.timestamp := replied_at |}]).
Proof.
  intros Hmode Hsession Hinput Herr Hinput2 Hselected. split.
  - unfold RagPage.handleSubmit, RagPage.chat_request, RagPage.read_chat_answer.
    rewrite Hinput, Hmode, Hsession. simpl. rewrite Herr. simpl.
    split; [reflexivity|]. now rewrite <- app_assoc.
  - unfold PdfChatPage.handleSubmit, PdfChatPage.chat_request, PdfChatPage.read_chat_result.
    rewrite Hinput2, Hselected. simpl.
    split; [reflexivity|]. now rewrite <- app_assoc.
Qed.

Lemma rag_chat_exchange_witness :
  let r := RagPage.handleSubmit sample_platform sample_rag_state
             (FetchResponse true (Normal (JObj [("content", JStr "It is a report.")])) None) in
  let r2 := PdfChatPage.handleSubmit sample_platform None sample_pdf_state
              (FetchResponse true (Normal (spec_chat_response "It is a report." 3)) None)
              10 20 in
  (snd r =
     [Fetch "/api/rag/chat" "POST"
        (JsonBody (JObj [("session_id", JStr "s1");
                         ("user_message", JStr "What is this about?");
                         ("model", JStr "gpt-4.1-mini")]))] /\
   RagPage.messages (fst r) =
     [user_says "What is this about?"; assistant_says "It is a report."]) /\
  (snd r2 =
     [Fetch "http://localhost:8000/api/pdf_chat" "POST"
        (JsonBody (JObj [("question", JStr "What is this about?");
                         ("pdf_filename", JStr "a.pdf");
                         ("model", JStr "gpt-4o-mini")]))] /\
   PdfChatPage.messages (fst r2) =
     [{| PdfChatPage.role := user; PdfChatPage.content := JStr "What is this about?";
         PdfChatPage.timestamp := 10 |};
      {| PdfChatPage.role := assistant; PdfChatPage.content := JStr "It is a report.";
         PdfChatPage.timestamp := 20 |}]).
Proof.
  exact (rag_chat_exchange sample_platform sample_rag_state sample_session
           [("content", JStr "It is a report.")] None
           None sample_pdf_state
           [("answer", JStr "It is a report."); ("relevant_chunks_used", JNum 3)] None
           10%Z 20%Z eq_refl eq_refl eq_refl eq_refl eq_refl eq_refl).
Defined.

(** C8, as stated, fails on the session page: the request names the model
    under [model], not [model_name], and a response [{ answer,
    relevant_chunks_used }] is shown as the notice, not as its answer. *)
Lemma rag_chat_answer_field_not_read :
  ~ (forall (answer : string) (used : Z),
       let r := RagPage.handleSubmit sample_platform sample_rag_state
                  (FetchResponse true (Normal (spec_chat_response answer used)) None) in
       map body_keys (snd r) = [["session_id"; "user_message"; "model_name"]] /\
       content <$> last (RagPage.messages (fst r)) = Some (JStr answer)).
Proof.
  intros H. specialize (H "It is a report." 3%Z). vm_compute in H.
  destruct H as [_ H]. discriminate H.
Qed.

Example rag_chat_answer_shown_as_notice :
  let r := RagPage.handleSubmit sample_platform sample_rag_state
             (FetchResponse true (Normal (spec_chat_response "It is a report." 3)) None) in
  map body_keys (snd r) = [["session_id"; "user_message"; "model"]] /\
  content <$> last (RagPage.messages (fst r)) = Some (JStr "No response content").
Proof. split; reflexivity. Qed.

(** ** Chunker *)

Section Windows.

Variables (txt : string) (chunk_size step : nat).

(** The [i]-th window starts [i] steps after the first one, carries the
    characters found there, and is a full window when another follows. *)
Lemma windows_lookup (fuel : nat) :
  forall (start nid i : nat) (c : Retrieval.Chunk),
    Retrieval.windows fuel start nid txt chunk_size step !! i = Some c ->
    Retrieval.id c = nid + i /\
    Retrieval.source_offset c = start + i * step /\
    Retrieval.text c = substring (Retrieval.source_offset c) chunk_size txt /\
    Retrieval.source_offset c < String.length txt /\
    (is_Some (Retrieval.windows fuel start nid txt chunk_size step !! S i) ->
     Retrieval.source_offset c + chunk_size < String.length txt).
Proof.
  induction fuel as [|fuel IH]; intros start nid i c; simpl; [discriminate|].
  destruct (Nat.leb_spec (String.length txt) start) as [Hend|Hin]; [discriminate|].
  destruct (Nat.leb_spec (String.length txt) (start + chunk_size)) as [Hlast|Hmore].
  - destruct i as [|i]; simpl; [|discriminate].
    intros [= <-]. simpl. repeat split; try lia.
    intros [x Hx]. discriminate.
  - destruct i as [|i]; simpl.
    + intros [= <-]. simpl. repeat split; lia.
    + intros Hc. destruct (IH _ _ _ _ Hc) as (Hid & Hoff & Htext & Hlt & Hnext).
      repeat split; try lia; assumption.
Qed.

(** With enough fuel, every offset from [start] on lies in some window. *)
Lemma windows_cover (fuel : nat) :
  0 < step -> step <= chunk_size ->
  forall (start nid j : nat),
    String.length txt - start <= fuel ->
    start <= j < String.length txt ->
    exists c, c ∈ Retrieval.windows fuel start nid txt chunk_size step /\
              Retrieval.source_offset c <= j < Retrieval.source_offset c + chunk_size.
Proof.
  intros step_pos step_le.
  induction fuel as [|fuel IH]; intros start nid j Hfuel Hj; simpl; [lia|].
  destruct (Nat.leb_spec (String.length txt) start) as [Hend|Hin]; [lia|].
  destruct (Nat.leb_spec (String.length txt) (start + chunk_size)) as [Hlast|Hmore].
  - eexists. split; [apply list_elem_of_singleton; reflexivity|]. simpl. lia.
  - destruct (Nat.lt_ge_cases j (start + step)) as [Hnear|Hfar].
    + eexists. split; [apply list_elem_of_here|]. simpl. lia.
    + destruct (IH (start + step) (S nid) j) as (c & Hc & Hcov); [lia|lia|].
      exists c. split; [now apply list_elem_of_further | exact Hcov].
Qed.

End Windows.

(** C3. For a valid [(chunk_size, overlap)], [split] succeeds; its [i]-th
    window starts at [i * (chunk_size - overlap)] and holds the
    [chunk_size] characters found there, fewer only in the final window;
    every offset of the text lies in some window; an empty text gives no
    window. *)
Theorem split_windows_cover_text (txt : string) (chunk_size overlap : nat) :
  0 < chunk_size ->
  overlap < chunk_size ->
  exists cs,
    Retrieval.split txt chunk_size overlap = Retrieval.Ok cs /\
    (forall i c, cs !! i = Some c ->
       Retrieval.source_offset c = i * (chunk_size - overlap) /\
       Retrieval.text c = substring (Retrieval.source_offset c) chunk_size txt /\
       0 < String.length (Retrieval.text c) /\
       (S i < length cs -> String.length (Retrieval.text c) = chunk_size)) /\
    (forall j, j < String.length txt -> exists c, c ∈ cs /\ Retrieval.covers c j) /\
    (txt = EmptyString -> cs = []).
Proof.
  intros Hsize Hoverlap. unfold Retrieval.split.
  assert (Hguard : (0 <? chunk_size) && (overlap <? chunk_size) = true).
  { apply andb_true_iff. split; apply Nat.ltb_lt; assumption. }
  rewrite Hguard. eexists. split; [reflexivity|].
  set (step := chunk_size - overlap).
  assert (Hstep : 0 < step) by (unfold step; lia).
  assert (Hle : step <= chunk_size) by (unfold step; lia).
  split; [|split].
  - intros i c Hc.
    destruct (windows_lookup _ _ _ _ _ _ _ _ Hc)
      as (_ & Hoff & Htext & Hlt & Hnext).
    simpl in Hoff. repeat split; try assumption.
    + rewrite Htext, substring_length. lia.
    + intros Hi. rewrite Htext, substring_length.
      assert (Retrieval.source_offset c + chunk_size < String.length txt); [|lia].
      apply Hnext. apply lookup_lt_is_Some. exact Hi.
  - intros j Hj.
    destruct (windows_cover txt chunk_size step (String.length txt) Hstep Hle 0 0 j)
      as (c & Hc & Hcov); [lia|lia|].
    exists c. split; [exact Hc|].
    apply list_elem_of_lookup in Hc as [i Hi].
    destruct (windows_lookup _ _ _ _ _ _ _ _ Hi)
      as (_ & _ & Htext & Hlt & _).
    unfold Retrieval.covers. rewrite Htext, substring_length. lia.
  - intros ->. reflexivity.
Qed.

Lemma split_windows_cover_text_witness :
  exists cs,
    Retrieval.split "Hello world. This is a test document." 20 5 = Retrieval.Ok cs /\
    (forall i c, cs !! i = Some c ->
       Retrieval.source_offset c = i * (20 - 5) /\
       Retrieval.text c =
         substring (Retrieval.source_offset c) 20 "Hello world. This is a test document." /\
       0 < String.length (Retrieval.text c) /\
       (S i < length cs -> String.length (Retrieval.text c) = 20)) /\
    (forall j, j < String.length "Hello world. This is a test document." ->
       exists c, c ∈ cs /\ Retrieval.covers c j) /\
    ("Hello world. This is a test document." = EmptyString -> cs = []).
Proof.
  apply (split_windows_cover_text "Hello world. This is a test document." 20 5); lia.
Defined.

(** The scenario of the specification: three overlapping windows. *)
Example split_scenario :
  Retrieval.split "Hello world. This is a test document." 20 5 =
  Retrieval.Ok
    [ {| Retrieval.id := 0; Retrieval.text := "Hello world. This is";
         Retrieval.source_offset := 0 |};
      {| Retrieval.id := 1; Retrieval.text := "is is a test documen";
         Retrieval.source_offset := 15 |};
      {| Retrieval.id := 2; Retrieval.text := "cument.";
         Retrieval.source_offset := 30 |} ].
Proof. reflexivity. Qed.

(** ** Cosine similarity *)

Section Similarity.

Local Open Scope R_scope.

Lemma dot_self_nonneg (a : Retrieval.Embedding) : 0 <= Retrieval.dot a a.
Proof. induction a as [|x a IH]; simpl; [lra | nra]. Qed.

Lemma square_le (w t : R) : 0 <= t -> w * w <= t * t -> w <= t.
Proof. intros Ht Hsq. nra. Qed.

(** Cauchy-Schwarz for the dot product of two sequences. *)
Lemma cauchy_schwarz (a : Retrieval.Embedding) :
  forall b : Retrieval.Embedding,
    Retrieval.dot a b * Retrieval.dot a b <= Retrieval.dot a a * Retrieval.dot b b.
Proof.
  induction a as [|x a IH]; intros [|y b]; simpl; try lra.
  specialize (IH b).
  pose proof (dot_self_nonneg a) as HA. pose proof (dot_self_nonneg b) as HC.
  set (A := Retrieval.dot a a) in *. set (C := Retrieval.dot b b) in *.
  set (B := Retrieval.dot a b) in *.
  assert (Hmix : 2 * (x * y * B) <= x * x * C + y * y * A).
  { apply square_le; [nra|].
    assert (H1 : (x * y) * (x * y) * (B * B) <= (x * y) * (x * y) * (A * C)).
    { apply Rmult_le_compat_l; [nra | exact IH]. }
    pose proof (Rle_0_sqr (x * x * C - y * y * A)) as H2. unfold Rsqr in H2.
    replace (2 * (x * y * B) * (2 * (x * y * B)))
      with (4 * (x * y * (x * y) * (B * B))) by ring.
    replace ((x * x * C + y * y * A) * (x * x * C + y * y * A))
      with ((x * x * C - y * y * A) * (x * x * C - y * y * A)
            + 4 * (x * y * (x * y) * (A * C))) by ring.
    lra. }
  nra.
Qed.

Lemma norm_nonneg (a : Retrieval.Embedding) : 0 <= Retrieval.norm a.
Proof. apply sqrt_pos. Qed.

Lemma norm_square (a : Retrieval.Embedding) :
  Retrieval.norm a * Retrieval.norm a = Retrieval.dot a a.
Proof. apply sqrt_sqrt, dot_self_nonneg. Qed.

Lemma dot_le_norms (a b : Retrieval.Embedding) :
  Retrieval.dot a b <= Retrieval.norm a * Retrieval.norm b.
Proof.
  apply square_le.
  - apply Rmult_le_pos; apply norm_nonneg.
  - pose proof (cauchy_schwarz a b) as H.
    rewrite <- (norm_square a), <- (norm_square b) in H. nra.
Qed.

Lemma similarity_le_1 (a b : Retrieval.Embedding) : Retrieval.similarity a b <= 1.
Proof.
  unfold Retrieval.similarity.
  destruct (Req_dec_T (Retrieval.norm a * Retrieval.norm b) 0) as [Hz|Hnz]; [lra|].
  pose proof (dot_le_norms a b) as Hle.
  pose proof (norm_nonneg a) as Ha. pose proof (norm_nonneg b) as Hb.
  set (d := Retrieval.norm a * Retrieval.norm b) in *.
  assert (Hd : 0 < d) by (unfold d in *; nra).
  apply (Rmult_le_reg_r d); [exact Hd|].
  unfold Rdiv. rewrite Rmult_assoc, Rinv_l by lra. lra.
Qed.

Lemma similarity_self (e : Retrieval.Embedding) :
  Retrieval.norm e <> 0 -> Retrieval.similarity e e = 1.
Proof.
  intros Hnz. unfold Retrieval.similarity.
  destruct (Req_dec_T (Retrieval.norm e * Retrieval.norm e) 0) as [Hz|Hd].
  - exfalso. apply Hnz. nra.
  - rewrite norm_square in *. now apply Rdiv_diag.
Qed.

Lemma similarity_zero_norm_l (a b : Retrieval.Embedding) :
  Retrieval.norm a = 0 -> Retrieval.similarity a b = 0.
Proof.
  intros Hz. unfold Retrieval.similarity. rewrite Hz, Rmult_0_l.
  now destruct (Req_dec_T 0 0).
Qed.

Lemma similarity_zero_norm_r (a b : Retrieval.Embedding) :
  Retrieval.norm b = 0 -> Retrieval.similarity a b = 0.
Proof.
  intros Hz. unfold Retrieval.similarity. rewrite Hz, Rmult_0_r.
  now destruct (Req_dec_T 0 0).
Qed.

(** No stored embedding is more similar to [e] than [e] itself. *)
Lemma similarity_le_self (e e' : Retrieval.Embedding) :
  Retrieval.similarity e e' <= Retrieval.similarity e e.
Proof.
  destruct (Req_dec_T (Retrieval.norm e) 0) as [Hz|Hnz].
  - rewrite !similarity_zero_norm_l by exact Hz. lra.
  - rewrite (similarity_self e Hnz). apply similarity_le_1.
Qed.

(** The checked computation never divides by zero; on embeddings of one
    dimension it yields the score. *)
Lemma cosine_similarity_ok (a b : Retrieval.Embedding) :
  length a = length b ->
  Retrieval.cosine_similarity a b = Retrieval.Ok (Retrieval.similarity a b).
Proof.
  intros Hlen. unfold Retrieval.cosine_similarity, Retrieval.similarity, Retrieval.checked_div.
  rewrite Hlen, Nat.eqb_refl. simpl.
  destruct (Req_dec_T (Retrieval.norm a * Retrieval.norm b) 0) as [Hz|Hnz]; [reflexivity|].
  destruct (Req_dec_T (Retrieval.norm a * Retrieval.norm b) 0); [contradiction|reflexivity].
Qed.

Lemma cosine_similarity_no_zero_division (a b : Retrieval.Embedding) :
  Retrieval.cosine_similarity a b <> Retrieval.Fail Retrieval.ZeroDivision.
Proof.
  unfold Retrieval.cosine_similarity, Retrieval.checked_div.
  destruct (negb (length a =? length b)%nat); [discriminate|].
  destruct (Req_dec_T (Retrieval.norm a * Retrieval.norm b) 0) as [Hz|Hnz]; [discriminate|].
  destruct (Req_dec_T (Retrieval.norm a * Retrieval.norm b) 0); [contradiction|discriminate].
Qed.

End Similarity.

(** ** Ranking *)

Section Ranking.

Context {A : Type} (key : A -> R).

Lemma rank_insert_perm (x : A) (l : list A) :
  Retrieval.rank_insert key x l ≡ₚ x :: l.
Proof.
  induction l as [|y l IH]; simpl; [reflexivity|].
  destruct (Rlt_dec (key x) (key y)); [|reflexivity].
  rewrite IH. apply Permutation_swap.
Qed.

Lemma rank_perm (l : list A) : Retrieval.rank key l ≡ₚ l.
Proof.
  induction l as [|x l IH]; simpl; [reflexivity|].
  unfold Retrieval.rank in *. simpl. now rewrite rank_insert_perm, IH.
Qed.

Lemma rank_length (l : list A) : length (Retrieval.rank key l) = length l.
Proof. apply Permutation_length, rank_perm. Qed.

Lemma rank_insert_sorted (x : A) (l : list A) :
  non_increasing key l -> non_increasing key (Retrieval.rank_insert key x l).
Proof.
  unfold non_increasing. induction 1 as [|y l Hl IH Hy]; simpl.
  - repeat constructor.
  - destruct (Rlt_dec (key x) (key y)) as [Hlt|Hge].
    + constructor; [exact IH|].
      rewrite rank_insert_perm. constructor; [lra | exact Hy].
    + constructor; [now constructor|].
      constructor; [lra|].
      eapply Forall_impl; [exact Hy|]. simpl. intros z Hz. lra.
Qed.

Lemma rank_sorted (l : list A) : non_increasing key (Retrieval.rank key l).
Proof.
  induction l as [|x l IH]; [constructor|]. now apply rank_insert_sorted.
Qed.

(** Insertion keeps the new item ahead of the items with the same score
    and changes nothing among the others. *)
Lemma rank_insert_stable (s : R) (x : A) (l : list A) :
  with_score key s (Retrieval.rank_insert key x l) = with_score key s (x :: l).
Proof.
  unfold with_score. induction l as [|y l IH]; simpl; [reflexivity|].
  destruct (Rlt_dec (key x) (key y)) as [Hlt|Hge]; [|reflexivity].
  rewrite (filter_cons _ y), IH, !(filter_cons _ x), (filter_cons _ y).
  repeat case_decide; try reflexivity. lra.
Qed.

Lemma rank_stable (s : R) (l : list A) :
  with_score key s (Retrieval.rank key l) = with_score key s l.
Proof.
  induction l as [|x l IH]; [reflexivity|].
  unfold Retrieval.rank in *. simpl. rewrite rank_insert_stable.
  unfold with_score in *. now rewrite !(filter_cons _ x), IH.
Qed.

(** The first item of the ranking is the earliest one of maximal score. *)
Lemma rank_head (l1 : list A) (x : A) (l2 : list A) :
  (forall y, y ∈ l1 -> (key y < key x)%R) ->
  (forall y, y ∈ l2 -> (key y <= key x)%R) ->
  exists rest, Retrieval.rank key (l1 ++ x :: l2) = x :: rest.
Proof.
  intros Hbefore Hafter. induction l1 as [|y l1 IH]; simpl.
  - unfold Retrieval.rank. simpl.
    destruct (foldr (Retrieval.rank_insert key) [] l2) as [|z r] eqn:E; simpl; [eauto|].
    assert (Hz : z ∈ l2).
    { rewrite <- (rank_perm l2). unfold Retrieval.rank. rewrite E. apply list_elem_of_here. }
    specialize (Hafter z Hz).
    destruct (Rlt_dec (key x) (key z)); [lra | eauto].
  - destruct IH as [rest Hrest].
    { intros z Hz. apply Hbefore. now apply list_elem_of_further. }
    unfold Retrieval.rank in *. simpl. rewrite Hrest. simpl.
    assert (Hy : (key y < key x)%R) by (apply Hbefore, list_elem_of_here).
    destruct (Rlt_dec (key y) (key x)); [eauto | contradiction].
Qed.

End Ranking.

(** ** Search *)

Lemma mapM_cons {A B} (f : A -> Retrieval.Result B) (x : A) (l : list A) :
  Retrieval.mapM f (x :: l) =
  match f x with
  | Retrieval.Ok y =>
      match Retrieval.mapM f l with
      | Retrieval.Ok ys => Retrieval.Ok (y :: ys)
      | Retrieval.Fail e => Retrieval.Fail e
      end
  | Retrieval.Fail e => Retrieval.Fail e
  end.
Proof. reflexivity. Qed.

Lemma score_entry_unfold (query : Retrieval.Embedding)
    (entry : Retrieval.Chunk * Retrieval.Embedding) :
  Retrieval.score_entry query entry =
  match Retrieval.cosine_similarity query (snd entry) with
  | Retrieval.Ok s => Retrieval.Ok (fst entry, s)
  | Retrieval.Fail e => Retrieval.Fail e
  end.
Proof. reflexivity. Qed.

Lemma search_unfold (query : Retrieval.Embedding) (k : nat) (idx : Retrieval.VectorIndex) :
  Retrieval.search query k idx =
  match Retrieval.mapM (Retrieval.score_entry query) (Retrieval.entries idx) with
  | Retrieval.Ok scored =>
      Retrieval.Ok (take (Nat.min k (Retrieval.size idx)) (Retrieval.rank snd scored))
  | Retrieval.Fail e => Retrieval.Fail e
  end.
Proof. reflexivity. Qed.

Lemma score_entries_ok (query : Retrieval.Embedding)
    (l : list (Retrieval.Chunk * Retrieval.Embedding)) :
  Forall (fun entry => length (snd entry) = length query) l ->
  Retrieval.mapM (Retrieval.score_entry query) l =
  Retrieval.Ok (map (fun entry => (fst entry, Retrieval.similarity query (snd entry))) l).
Proof.
  induction 1 as [|entry l Hentry _ IH]; [reflexivity|].
  rewrite mapM_cons, score_entry_unfold, IH.
  rewrite cosine_similarity_ok by (symmetry; exact Hentry). reflexivity.
Qed.

Lemma search_ok (query : Retrieval.Embedding) (k : nat) (idx : Retrieval.VectorIndex) :
  matches_dimension query idx ->
  Retrieval.search query k idx =
  Retrieval.Ok (take k (Retrieval.rank snd (Retrieval.scored_entries query idx))).
Proof.
  intros Hdim. rewrite search_unfold. unfold Retrieval.scored_entries.
  rewrite score_entries_ok by exact Hdim. f_equal.
  unfold Retrieval.size.
  destruct (Nat.min_spec k (length (Retrieval.entries idx))) as [[Hlt ->]|[Hge ->]];
    [reflexivity|].
  rewrite !firstn_all2; try reflexivity; rewrite rank_length, length_map; lia.
Qed.

Lemma search_no_zero_division (query : Retrieval.Embedding) (k : nat)
    (idx : Retrieval.VectorIndex) :
  Retrieval.search query k idx <> Retrieval.Fail Retrieval.ZeroDivision.
Proof.
  rewrite search_unfold.
  assert (H : Retrieval.mapM (Retrieval.score_entry query) (Retrieval.entries idx)
              <> Retrieval.Fail Retrieval.ZeroDivision).
  { induction (Retrieval.entries idx) as [|entry l IH]; [discriminate|].
    rewrite mapM_cons, score_entry_unfold.
    pose proof (cosine_similarity_no_zero_division query (snd entry)) as Hc.
    destruct (Retrieval.cosine_similarity query (snd entry)) as [s|f].
    - destruct (Retrieval.mapM (Retrieval.score_entry query) l);
        [discriminate | exact IH].
    - intros [= ->]. now apply Hc. }
  destruct (Retrieval.mapM (Retrieval.score_entry query) (Retrieval.entries idx));
    [discriminate | exact H].
Qed.

(** C1. On an index whose embeddings have the dimension of the query,
    [search] succeeds with the first [k] items of the stable ranking of the
    scored entries: the scores never increase, items of equal score keep
    their insertion order, the result holds [min k size] items (all of them
    when [k] is at least the size), and an empty index gives an empty
    result, not an error. *)
Theorem search_sorted_stable_clamped (query : Retrieval.Embedding) (k : nat)
    (idx : Retrieval.VectorIndex) :
  matches_dimension query idx ->
  exists res full,
    Retrieval.search query k idx = Retrieval.Ok res /\
    res = take k full /\
    full ≡ₚ Retrieval.scored_entries query idx /\
    non_increasing snd full /\
    (forall s, with_score snd s full = with_score snd s (Retrieval.scored_entries query idx)) /\
    non_increasing snd res /\
    length res = Nat.min k (Retrieval.size idx) /\
    (Retrieval.size idx <= k -> length res = Retrieval.size idx) /\
    (Retrieval.entries idx = [] -> res = []).
Proof.
  intros Hdim.
  exists (take k (Retrieval.rank snd (Retrieval.scored_entries query idx))),
         (Retrieval.rank snd (Retrieval.scored_entries query idx)).
  assert (Hlen : length (Retrieval.rank snd (Retrieval.scored_entries query idx)) =
                 Retrieval.size idx).
  { rewrite rank_length. unfold Retrieval.scored_entries. now rewrite length_map. }
  split; [now apply search_ok|]. split; [reflexivity|].
  split; [apply rank_perm|]. split; [apply rank_sorted|].
  split; [intros s; apply rank_stable|].
  split; [|split; [|split]].
  - pose proof (rank_sorted snd (Retrieval.scored_entries query idx)) as Hs.
    rewrite <- (take_drop k) in Hs. unfold non_increasing in *.
    now apply StronglySorted_app_1_l in Hs.
  - now rewrite length_take, Hlen.
  - intros Hk. rewrite length_take, Hlen. lia.
  - intros Hempty. unfold Retrieval.scored_entries. rewrite Hempty. simpl.
    now destruct k.
Qed.

Lemma sample_index_matches (x y : R) : matches_dimension [x; y] sample_index.
Proof. repeat constructor. Qed.

Lemma search_sorted_stable_clamped_witness :
  exists res full,
    Retrieval.search [0%R; 1%R] 3 sample_index = Retrieval.Ok res /\
    res = take 3 full /\
    full ≡ₚ Retrieval.scored_entries [0%R; 1%R] sample_index /\
    non_increasing snd full /\
    (forall s, with_score snd s full =
               with_score snd s (Retrieval.scored_entries [0%R; 1%R] sample_index)) /\
    non_increasing snd res /\
    length res = Nat.min 3 (Retrieval.size sample_index) /\
    (Retrieval.size sample_index <= 3 -> length res = Retrieval.size sample_index) /\
    (Retrieval.entries sample_index = [] -> res = []).
Proof.
  exact (search_sorted_stable_clamped [0%R; 1%R] 3 sample_index (sample_index_matches 0 1)).
Defined.

(** Searching an empty index gives the empty sequence. *)
Example search_empty_index (query : Retrieval.Embedding) (k : nat) :
  Retrieval.search query k Retrieval.empty_index = Retrieval.Ok [].
Proof. rewrite search_unfold. simpl. now rewrite Nat.min_0_r. Qed.

(** C4. A stored embedding of norm 0 scores exactly 0 against every query
    of its dimension, and no search divides by zero. *)
Theorem zero_norm_scores_zero (query e : Retrieval.Embedding) :
  length query = length e ->
  Retrieval.norm e = 0%R ->
  Retrieval.cosine_similarity query e = Retrieval.Ok 0%R /\
  (forall k idx, Retrieval.search query k idx <> Retrieval.Fail Retrieval.ZeroDivision).
Proof.
  intros Hlen Hz. split.
  - rewrite cosine_similarity_ok by exact Hlen.
    now rewrite similarity_zero_norm_r.
  - intros k idx. apply search_no_zero_division.
Qed.

Lemma norm_zero_vector : Retrieval.norm [0%R; 0%R] = 0%R.
Proof.
  unfold Retrieval.norm. simpl.
  replace (0 * 0 + (0 * 0 + 0))%R with 0%R by ring. apply sqrt_0.
Qed.

Lemma zero_norm_scores_zero_witness :
  Retrieval.cosine_similarity [3%R; 4%R] [0%R; 0%R] = Retrieval.Ok 0%R /\
  (forall k idx,
     Retrieval.search [3%R; 4%R] k idx <> Retrieval.Fail Retrieval.ZeroDivision).
Proof.
  exact (zero_norm_scores_zero [3%R; 4%R] [0%R; 0%R] eq_refl norm_zero_vector).
Defined.

(** ** Searching with a stored embedding *)

(** The entry that is first among those of maximal score is ranked first. *)
Lemma search_first (query : Retrieval.Embedding) (k : nat) (idx : Retrieval.VectorIndex)
    (i : nat) (c : Retrieval.Chunk) (e : Retrieval.Embedding) :
  1 <= k ->
  matches_dimension query idx ->
  Retrieval.entries idx !! i = Some (c, e) ->
  (forall j entry, j < i -> Retrieval.entries idx !! j = Some entry ->
     (Retrieval.similarity query (snd entry) < Retrieval.similarity query e)%R) ->
  (forall entry, entry ∈ Retrieval.entries idx ->
     (Retrieval.similarity query (snd entry) <= Retrieval.similarity query e)%R) ->
  exists rest,
    Retrieval.search query k idx =
    Retrieval.Ok ((c, Retrieval.similarity query e) :: rest).
Proof.
  intros Hk Hdim Hi Hbefore Hall.
  rewrite search_ok by exact Hdim. unfold Retrieval.scored_entries.
  rewrite <- (take_drop_middle _ _ _ Hi), map_app. simpl.
  destruct (rank_head snd
              (map (fun entry => (fst entry, Retrieval.similarity query (snd entry)))
                   (take i (Retrieval.entries idx)))
              (c, Retrieval.similarity query e)
              (map (fun entry => (fst entry, Retrieval.similarity query (snd entry)))
                   (drop (S i) (Retrieval.entries idx)))) as [rest Hrest].
  - intros y Hy. apply list_elem_of_fmap in Hy as (entry & -> & Hentry).
    apply list_elem_of_lookup in Hentry as [j Hj].
    apply lookup_take_Some in Hj as [Hj Hlt]. simpl. now apply (Hbefore j).
  - intros y Hy. apply list_elem_of_fmap in Hy as (entry & -> & Hentry).
    simpl. apply Hall.
    apply list_elem_of_lookup in Hentry as [j Hj]. rewrite lookup_drop in Hj.
    apply list_elem_of_lookup. eauto.
  - rewrite Hrest. destruct k as [|k]; [lia|]. simpl. eauto.
Qed.

Lemma same_dimension_Forall (embs : list Retrieval.Embedding) (e : Retrieval.Embedding) :
  Retrieval.same_dimension embs = true ->
  e ∈ embs ->
  Forall (fun e' => length e' = length e) embs.
Proof.
  destruct embs as [|e0 rest]; simpl; [constructor|].
  intros Hall He.
  assert (Hrest : Forall (fun e' => length e' = length e0) rest).
  { apply Forall_forall. intros e' He'.
    apply Nat.eqb_eq. eapply forallb_forall in Hall; [exact Hall|].
    now apply list_elem_of_In. }
  assert (Hlen : length e = length e0).
  { apply elem_of_cons in He as [->|He]; [reflexivity|].
    eapply Forall_forall in Hrest; [exact Hrest|]. exact He. }
  constructor; [congruence|].
  eapply Forall_impl; [exact Hrest|]. simpl. congruence.
Qed.

(** What a successful [insert] into the empty index leaves behind. *)
Lemma insert_empty_inv (cs : list Retrieval.Chunk) (embs : list Retrieval.Embedding)
    (idx : Retrieval.VectorIndex) :
  Retrieval.insert cs embs Retrieval.empty_index = Retrieval.Ok idx ->
  Retrieval.entries idx = zip cs embs /\
  length cs = length embs /\
  Retrieval.same_dimension embs = true.
Proof.
  unfold Retrieval.insert. simpl.
  destruct (length cs =? length embs) eqn:Hlen; simpl; [|discriminate].
  destruct (Retrieval.same_dimension embs) eqn:Hdim; [|discriminate].
  intros [= <-]. simpl. apply Nat.eqb_eq in Hlen. auto.
Qed.

Lemma search_exact (query : Retrieval.Embedding) (k : nat) (idx : Retrieval.VectorIndex) :
  Retrieval.search query k idx =
  Retrieval.search_with Retrieval.cosine_similarity query k idx.
Proof. reflexivity. Qed.

Lemma search_with_unfold (score : Retrieval.Embedding -> Retrieval.Embedding -> Retrieval.Result R)
    (query : Retrieval.Embedding) (k : nat) (idx : Retrieval.VectorIndex) :
  Retrieval.search_with score query k idx =
  match Retrieval.mapM
          (fun entry =>
             match score query (snd entry) with
             | Retrieval.Ok s => Retrieval.Ok (fst entry, s)
             | Retrieval.Fail f => Retrieval.Fail f
             end) (Retrieval.entries idx) with
  | Retrieval.Ok scored =>
      Retrieval.Ok (take (Nat.min k (Retrieval.size idx)) (Retrieval.rank snd scored))
  | Retrieval.Fail f => Retrieval.Fail f
  end.
Proof. reflexivity. Qed.

(** Whatever the arithmetic, the entry that is first among those of the
    highest computed score is ranked first. *)
Lemma search_with_first
    (score : Retrieval.Embedding -> Retrieval.Embedding -> Retrieval.Result R)
    (s : Retrieval.Embedding -> R)
    (query : Retrieval.Embedding) (k : nat) (idx : Retrieval.VectorIndex)
    (i : nat) (c : Retrieval.Chunk) (e : Retrieval.Embedding) :
  1 <= k ->
  (forall entry, entry ∈ Retrieval.entries idx ->
     score query (snd entry) = Retrieval.Ok (s (snd entry))) ->
  Retrieval.entries idx !! i = Some (c, e) ->
  (forall j entry, j < i -> Retrieval.entries idx !! j = Some entry ->
     (s (snd entry) < s e)%R) ->
  (forall entry, entry ∈ Retrieval.entries idx -> (s (snd entry) <= s e)%R) ->
  exists rest, Retrieval.search_with score query k idx = Retrieval.Ok ((c, s e) :: rest).
Proof.
  intros Hk Hscore Hi Hbefore Hall. rewrite search_with_unfold.
  assert (Hscored : Retrieval.mapM
            (fun entry =>
               match score query (snd entry) with
               | Retrieval.Ok s0 => Retrieval.Ok (fst entry, s0)
               | Retrieval.Fail f => Retrieval.Fail f
               end) (Retrieval.entries idx) =
          Retrieval.Ok (map (fun entry => (fst entry, s (snd entry))) (Retrieval.entries idx))).
  { clear Hi Hbefore Hall.
    induction (Retrieval.entries idx) as [|entry l IH]; [reflexivity|].
    rewrite mapM_cons, (Hscore entry) by apply list_elem_of_here.
    rewrite IH; [reflexivity|]. intros entry' Hin. apply Hscore. now apply list_elem_of_further. }
  rewrite Hscored.
  assert (Htake : forall l : list (Retrieval.Chunk * R),
            length l = Retrieval.size idx ->
            take (Nat.min k (Retrieval.size idx)) l = take k l).
  { intros l Hl.
    destruct (Nat.min_spec k (Retrieval.size idx)) as [[Hlt ->]|[Hge ->]]; [reflexivity|].
    rewrite !firstn_all2; try reflexivity; lia. }
  rewrite Htake by (rewrite rank_length, length_map; reflexivity).
  rewrite <- (take_drop_middle _ _ _ Hi), map_app. simpl.
  destruct (rank_head snd
              (map (fun entry => (fst entry, s (snd entry))) (take i (Retrieval.entries idx)))
              (c, s e)
              (map (fun entry => (fst entry, s (snd entry)))
                   (drop (S i) (Retrieval.entries idx)))) as [rest Hrest].
  - intros y Hy. apply list_elem_of_fmap in Hy as (entry & -> & Hentry).
    apply list_elem_of_lookup in Hentry as [j Hj].
    apply lookup_take_Some in Hj as [Hj Hlt]. simpl. now apply (Hbefore j).
  - intros y Hy. apply list_elem_of_fmap in Hy as (entry & -> & Hentry).
    simpl. apply Hall.
    apply list_elem_of_lookup in Hentry as [j Hj]. rewrite lookup_drop in Hj.
    apply list_elem_of_lookup. eauto.
  - rewrite Hrest. destruct k as [|k]; [lia|]. simpl. eauto.
Qed.


(** In exact arithmetic no stored pair scores higher than the query does
    against itself, so there only the ties with earlier pairs matter. *)
Lemma exact_scores_rank_stored_first (cs : list Retrieval.Chunk)
    (embs : list Retrieval.Embedding) (idx : Retrieval.VectorIndex)
    (i : nat) (c : Retrieval.Chunk) (e : Retrieval.Embedding) (k : nat) :
  Retrieval.insert cs embs Retrieval.empty_index = Retrieval.Ok idx ->
  cs !! i = Some c ->
  embs !! i = Some e ->
  1 <= k ->
  (forall j e', j < i -> embs !! j = Some e' ->
     Retrieval.similarity e e' <> Retrieval.similarity e e) ->
  exists rest,
    Retrieval.search e k idx = Retrieval.Ok ((c, Retrieval.similarity e e) :: rest).
Proof.
  intros Hins Hc He Hk Hties.
  apply insert_empty_inv in Hins as (Hentries & Hlen & Hdim).
  assert (Hin : e ∈ embs) by (apply list_elem_of_lookup; eauto).
  pose proof (same_dimension_Forall embs e Hdim Hin) as Hall.
  apply (search_first e k idx i c e Hk).
  - unfold matches_dimension. rewrite Hentries.
    apply Forall_forall. intros [c' e'] Hentry. simpl.
    apply list_elem_of_lookup in Hentry as [j Hj].
    apply lookup_zip_Some in Hj as [_ Hj].
    eapply Forall_forall in Hall; [exact Hall|].
    apply list_elem_of_lookup. eauto.
  - rewrite Hentries. apply lookup_zip_Some. auto.
  - intros j [c' e'] Hj Hentry. simpl.
    rewrite Hentries in Hentry. apply lookup_zip_Some in Hentry as [_ He'].
    pose proof (similarity_le_self e e'). specialize (Hties j e' Hj He').
    apply Rle_lt_or_eq_dec in H as [Hlt|Heq]; [exact Hlt | contradiction].
  - intros entry _. apply similarity_le_self.
Qed.







(** The same happens when the stored embedding is the zero vector: every
    score is 0 and the first inserted chunk is ranked first. *)
Example zero_embedding_not_ranked_first :
  exists rest,
    Retrieval.search [0%R; 0%R] 1
      {| Retrieval.entries :=
           [(sample_chunk 0 "Hello world. This is", [1%R; 0%R]);
            (sample_chunk 1 "is is a test documen", [0%R; 0%R])] |} =
    Retrieval.Ok ((sample_chunk 0 "Hello world. This is", 0%R) :: rest).
Proof.
  destruct (search_first [0%R; 0%R] 1
              {| Retrieval.entries :=
                   [(sample_chunk 0 "Hello world. This is", [1%R; 0%R]);
                    (sample_chunk 1 "is is a test documen", [0%R; 0%R])] |}
              0 (sample_chunk 0 "Hello world. This is") [1%R; 0%R]) as [rest Hrest].
  - lia.
  - repeat constructor.
  - reflexivity.
  - intros j entry Hj. lia.
  - intros entry _. rewrite !similarity_zero_norm_l by apply norm_zero_vector. lra.
  - exists rest. rewrite Hrest.
    now rewrite (similarity_zero_norm_l _ _ norm_zero_vector).
Qed.

(** The tie of the counterexample does not come from exact division:
    under any arithmetic that gives the two stored embeddings the same
    score, the one inserted first is ranked first. *)
Example tied_scores_rank_earlier_first
    (score : Retrieval.Embedding -> Retrieval.Embedding -> Retrieval.Result R) (v : R) :
  score [2%R; 0%R] [1%R; 0%R] = Retrieval.Ok v ->
  score [2%R; 0%R] [2%R; 0%R] = Retrieval.Ok v ->
  exists rest,
    Retrieval.search_with score [2%R; 0%R] 1 sample_index =
    Retrieval.Ok ((sample_chunk 0 "Hello world. This is", v) :: rest).
Proof.
  intros Hfirst Hsecond.
  apply (search_with_first score (fun _ => v) [2%R; 0%R] 1 sample_index 0
           (sample_chunk 0 "Hello world. This is") [1%R; 0%R]).
  - lia.
  - intros entry Hentry.
    apply elem_of_cons in Hentry as [->|Hentry]; [exact Hfirst|].
    apply elem_of_cons in Hentry as [->|Hentry]; [exact Hsecond|].
    now apply not_elem_of_nil in Hentry.
  - reflexivity.
  - intros j entry Hj. lia.
  - intros entry _. lra.
Qed.

(** Why the amended claim speaks of computed scores: when rounding gives
    another stored embedding a score above the one the query computes
    against itself, that other chunk is ranked first, whatever the order of
    insertion. *)
Example score_above_self_ranks_other_first
    (score : Retrieval.Embedding -> Retrieval.Embedding -> Retrieval.Result R)
    (c0 c1 : Retrieval.Chunk) (e0 e1 : Retrieval.Embedding) (v0 v1 : R) :
  score e1 e0 = Retrieval.Ok v0 ->
  score e1 e1 = Retrieval.Ok v1 ->
  (v1 < v0)%R ->
  (exists rest,
     Retrieval.search_with score e1 1 {| Retrieval.entries := [(c0, e0); (c1, e1)] |} =
     Retrieval.Ok ((c0, v0) :: rest)) /\
  (exists rest,
     Retrieval.search_with score e1 1 {| Retrieval.entries := [(c1, e1); (c0, e0)] |} =
     Retrieval.Ok ((c0, v0) :: rest)).
Proof.
  intros H0 H1 Hlt.
  assert (Hne : e1 <> e0).
  { intros Heq. subst e1. rewrite H1 in H0. injection H0 as ->. lra. }
  set (s := fun e' : Retrieval.Embedding => if decide (e' = e0) then v0 else v1).
  assert (Hs0 : s e0 = v0) by (unfold s; now rewrite decide_True).
  assert (Hs1 : s e1 = v1) by (unfold s; now rewrite decide_False).
  assert (Hscore : forall entry, entry ∈ [(c0, e0); (c1, e1)] ->
                     score e1 (snd entry) = Retrieval.Ok (s (snd entry)) /\
                     (s (snd entry) <= s e0)%R).
  { intros entry Hentry.
    apply elem_of_cons in Hentry as [->|Hentry]; [simpl; rewrite Hs0; split; [exact H0|lra]|].
    apply elem_of_cons in Hentry as [->|Hentry];
      [simpl; rewrite Hs0, Hs1; split; [exact H1|lra]|].
    now apply not_elem_of_nil in Hentry. }
  rewrite <- Hs0. split.
  - apply (search_with_first score s e1 1 _ 0 c0 e0); simpl.
    + lia.
    + intros entry Hentry. now apply Hscore.
    + reflexivity.
    + intros j entry Hj. lia.
    + intros entry Hentry. now apply Hscore.
  - apply (search_with_first score s e1 1 _ 1 c0 e0); simpl.
    + lia.
    + intros entry Hentry. apply Hscore.
      apply elem_of_cons in Hentry as [->|Hentry]; [apply list_elem_of_further, list_elem_of_here|].
      apply elem_of_cons in Hentry as [->|Hentry]; [apply list_elem_of_here|].
      now apply not_elem_of_nil in Hentry.
    + reflexivity.
    + intros [|j] entry Hj Hentry; [|lia]. injection Hentry as <-. simpl.
      rewrite Hs0, Hs1. exact Hlt.
    + intros entry Hentry. apply Hscore.
      apply elem_of_cons in Hentry as [->|Hentry]; [apply list_elem_of_further, list_elem_of_here|].
      apply elem_of_cons in Hentry as [->|Hentry]; [apply list_elem_of_here|].
      now apply not_elem_of_nil in Hentry.
Qed.

(** ** Upload *)


Section UploadFacts.

Variable extract_text : list Byte.byte -> Retrieval.Result string.
Variable provider : list Retrieval.Work -> list string -> option (list Retrieval.Embedding).
Variables chunk_size overlap : nat.
Variable max_batch : positive.
Variable max_attempts : nat.








End UploadFacts.


(** C6. An upload whose file name does not indicate a PDF is rejected with
    UnsupportedFormat with the world as it was, so nothing has been
    extracted, chunked or embedded; on the client, both upload handlers stop
    at their guard without sending the file. *)
Theorem non_pdf_upload_rejected_before_work
    (extract_text : list Byte.byte -> Retrieval.Result string)
    (provider : list Retrieval.Work -> list string -> option (list Retrieval.Embedding))
    (chunk_size overlap : nat) (max_batch : positive) (max_attempts : nat)
    (fname : string) (bytes : list Byte.byte) (w : Retrieval.World)
    (pf : Platform) (st : RagPage.State) (read : FileReadOutcome)
    (upload reload : FetchOutcome) (env_api_url : option string)
    (st2 : PdfChatPage.State) (upload2 : FetchOutcome) (now : Z) :
  ~ has_pdf_extension fname ->
  Retrieval.upload extract_text provider chunk_size overlap max_batch max_attempts
    fname bytes w = (w, Retrieval.Fail (Retrieval.Typed Retrieval.UnsupportedFormat)) /\
  requests (snd (RagPage.handleFileUpload pf st (Some fname) read upload reload)) = [] /\
  requests (snd (PdfChatPage.handleFileUpload pf env_api_url st2 (Some fname) upload2 now)) = [].
Proof.
  intros Hname. apply not_pdf_name in Hname.
  unfold Retrieval.upload, RagPage.handleFileUpload, PdfChatPage.handleFileUpload.
  rewrite Hname. simpl. auto.
Qed.

Lemma non_pdf_upload_rejected_before_work_witness :
  Retrieval.upload (fun _ => Retrieval.Ok "Hello world. This is a test document.")
    (fun _ batch => Some (map (fun _ => [1%R; 0%R]) batch)) 20 5 16 3
    "notes.txt" [] {| Retrieval.store := ∅; Retrieval.log := [] |} =
    ({| Retrieval.store := ∅; Retrieval.log := [] |},
     Retrieval.Fail (Retrieval.Typed Retrieval.UnsupportedFormat)) /\
  requests (snd (RagPage.handleFileUpload sample_platform sample_rag_state (Some "notes.txt")
                   (ReadLoaded "data:text/plain;base64,aGk=") (FetchRejected NonError)
                   (FetchRejected NonError))) = [] /\
  requests (snd (PdfChatPage.handleFileUpload sample_platform None sample_pdf_state
                   (Some "notes.txt") (FetchRejected NonError) 0)) = [].
Proof.
  exact (non_pdf_upload_rejected_before_work
           (fun _ => Retrieval.Ok "Hello world. This is a test document.")
           (fun _ batch => Some (map (fun _ => [1%R; 0%R]) batch)) 20 5 16%positive 3
           "notes.txt" [] {| Retrieval.store := ∅; Retrieval.log := [] |}
           sample_platform sample_rag_state
           (ReadLoaded "data:text/plain;base64,aGk=") (FetchRejected NonError)
           (FetchRejected NonError) None sample_pdf_state (FetchRejected NonError) 0%Z
           notes_txt_has_no_pdf_extension).
Defined.

(** The scenario document is indexed as three chunks. *)
Example upload_scenario_chunk_count :
  match snd (sample_upload "scenario.pdf" 10) with
  | Retrieval.Ok resp =>
      Retrieval.filename resp = "scenario.pdf" /\ Retrieval.chunk_count resp = 3
  | Retrieval.Fail _ => False
  end.
Proof. split; reflexivity. Qed.

(** When the endpoint stops answering after the first sub-batch, the second
    one is tried twice, the upload ends with the terminal error, and the
    store holds no session. *)
Example upload_scenario_partial_embedding :
  snd (sample_upload "scenario.pdf" 3) =
    Retrieval.Fail (Retrieval.Typed Retrieval.UpstreamError) /\
  Retrieval.log (fst (sample_upload "scenario.pdf" 3)) =
    [Retrieval.Extracted; Retrieval.Chunked 3;
     Retrieval.EmbedCall ["Hello world. This is"; "is is a test documen"];
     Retrieval.EmbedCall ["cument."]; Retrieval.EmbedCall ["cument."]] /\
  Retrieval.store (fst (sample_upload "scenario.pdf" 3)) = ∅.
Proof. repeat split; reflexivity. Qed.

(** Deleting a session the store does not hold reports NotFound. *)
Lemma delete_unknown_session (sid : string) (sessions : gmap string Retrieval.Session) :
  sessions !! sid = None ->
  Retrieval.delete_session sid sessions = Retrieval.Fail (Retrieval.Typed Retrieval.NotFound).
Proof. intros H. unfold Retrieval.delete_session. now rewrite H. Qed.

(* ================================================================== *)
(** * Further properties of the pages                                   *)
(* ================================================================== *)

(** ** General chat, first version of [page.tsx] *)

Lemma settle_sends_nothing (r : list Message * Completion unit) :
  requests (snd (Streaming.settle r)) = [].
Proof. destruct r as [msgs [u|t]]; reflexivity. Qed.

(** Whatever the environment answers, the [try] block adds at most the
    assistant message to the messages it was given, and the handler as a
    whole one or two assistant messages. *)
Lemma settle_consume_extends (pf : Platform) (outcome : FetchOutcome) (msgs : list Message) :
  exists more,
    fst (Streaming.settle (Streaming.consume_response pf outcome msgs)) = msgs ++ more /\
    1 <= length more <= 2 /\
    Forall (fun m => role m = assistant) more.
Proof.
  destruct outcome as [t | ok json body].
  - eexists. split; [reflexivity|]. simpl. split; [lia|]. repeat constructor.
  - destruct ok; [|eexists; split; [reflexivity|]; simpl; split; [lia|]; repeat constructor].
    destruct body as [stream|];
      [|eexists; split; [reflexivity|]; simpl; split; [lia|]; repeat constructor].
    pose proof (consume_stream pf json stream msgs) as Hfst.
    destruct (Streaming.consume_response pf _ msgs) as [msgs' [u|t]]; simpl in *; subst msgs'.
    + eexists. split; [reflexivity|]. simpl. split; [lia|]. repeat constructor.
    + rewrite <- app_assoc. eexists. split; [reflexivity|]. simpl. split; [lia|].
      repeat constructor.
Qed.

(** X1. [handleSubmit] of the general chat sends nothing and changes
    nothing when the input is empty or white space; otherwise it sends
    exactly one request, the POST to [/api/chat] carrying the input as typed,
    whatever the server then answers. *)
Theorem chat_submit_one_request (pf : Platform) (st : ChatPage.State)
    (outcome : FetchOutcome) :
  let r := ChatPage.handleSubmit pf st outcome in
  if blank (ChatPage.input st)
  then r = (st, [])
  else requests (snd r) = [ChatPage.chat_request (ChatPage.input st)].
Proof.
  unfold ChatPage.handleSubmit. destruct (blank (ChatPage.input st)); [reflexivity|].
  pose proof (settle_sends_nothing
                (Streaming.consume_response pf outcome
                   (ChatPage.messages st ++ [user_says (ChatPage.input st)]))) as H.
  destruct (Streaming.settle _) as [msgs effs]. simpl in *.
  unfold requests in *. rewrite filter_cons. simpl. now rewrite H.
Qed.

(** X2. After a submit with a non-blank input the earlier messages are
    still there, followed by the user's message and one or two assistant
    messages; the input is cleared and the loading flag is off, whatever the
    server answered. *)
Theorem chat_submit_extends_history (pf : Platform) (st : ChatPage.State)
    (outcome : FetchOutcome) :
  blank (ChatPage.input st) = false ->
  let st' := fst (ChatPage.handleSubmit pf st outcome) in
  (exists more,
     ChatPage.messages st' =
       ChatPage.messages st ++ user_says (ChatPage.input st) :: more /\
     1 <= length more <= 2 /\
     Forall (fun m => role m = assistant) more) /\
  ChatPage.input st' = EmptyString /\
  ChatPage.isLoading st' = false.
Proof.
  intros Hinput. unfold ChatPage.handleSubmit. rewrite Hinput.
  destruct (settle_consume_extends pf outcome
              (ChatPage.messages st ++ [user_says (ChatPage.input st)]))
    as (more & Hmore & Hlen & Hroles).
  destruct (Streaming.settle _) as [msgs effs]. simpl in *. subst msgs.
  split; [|auto]. exists more. rewrite <- app_assoc. auto.
Qed.

Lemma chat_submit_extends_history_witness :
  let st' := fst (ChatPage.handleSubmit sample_platform sample_chat_state
                    (FetchResponse true (Throw NonError) (Some sample_broken_stream))) in
  (exists more,
     ChatPage.messages st' = [] ++ user_says "hello" :: more /\
     1 <= length more <= 2 /\
     Forall (fun m => role m = assistant) more) /\
  ChatPage.input st' = EmptyString /\
  ChatPage.isLoading st' = false.
Proof.
  exact (chat_submit_extends_history sample_platform sample_chat_state
           (FetchResponse true (Throw NonError) (Some sample_broken_stream)) eq_refl).
Defined.

(** X3. When the server answers with an error status, both versions of
    the general chat and the session page end with the same fixed notice as
    the assistant's message: nothing of the response, neither its JSON nor
    its body, reaches the user. *)
Theorem error_status_shows_fixed_notice (pf : Platform)
    (st : ChatPage.State) (env_backend_url : option string)
    (st2 : ChatPageWithKey.State) (st3 : RagPage.State)
    (json : Completion JsValue) (body : option BodyStream) :
  blank (ChatPage.input st) = false ->
  blank (ChatPageWithKey.input st2) = false ->
  String.eqb (ChatPageWithKey.apiKey st2) EmptyString = false ->
  blank (RagPage.input st3) = false ->
  let notice := Some (assistant_says "Error: Failed to get response from the server") in
  last (ChatPage.messages
          (fst (ChatPage.handleSubmit pf st (FetchResponse false json body)))) = notice /\
  last (ChatPageWithKey.messages
          (fst (ChatPageWithKey.handleSubmit pf env_backend_url st2
                  (FetchResponse false json body)))) = notice /\
  last (RagPage.messages
          (fst (RagPage.handleSubmit pf st3 (FetchResponse false json body)))) = notice.
Proof.
  intros Hinput Hinput2 Hkey Hinput3.
  unfold ChatPage.handleSubmit, ChatPageWithKey.handleSubmit, RagPage.handleSubmit.
  rewrite Hinput, Hinput2, Hkey, Hinput3. simpl.
  repeat split; apply last_snoc.
Qed.

Lemma error_status_shows_fixed_notice_witness :
  let notice := Some (assistant_says "Error: Failed to get response from the server") in
  let refused := FetchResponse false (Normal (JObj [("detail", JStr "quota exceeded")]))
                   (Some sample_stream) in
  last (ChatPage.messages
          (fst (ChatPage.handleSubmit sample_platform sample_chat_state refused))) = notice /\
  last (ChatPageWithKey.messages
          (fst (ChatPageWithKey.handleSubmit sample_platform None sample_key_state refused)))
    = notice /\
  last (RagPage.messages
          (fst (RagPage.handleSubmit sample_platform sample_rag_state refused))) = notice.
Proof.
  exact (error_status_shows_fixed_notice sample_platform sample_chat_state None
           sample_key_state sample_rag_state
           (Normal (JObj [("detail", JStr "quota exceeded")])) (Some sample_stream)
           eq_refl eq_refl eq_refl eq_refl).
Defined.

(** X4. When the body stream breaks after delivering some chunks, the
    text received so far stays on screen as the assistant message, and the
    error is reported in a further assistant message after it. *)
Theorem stream_failure_keeps_partial_reply (pf : Platform) (st : ChatPage.State)
    (json : Completion JsValue) (stream : BodyStream) (t : Thrown) :
  blank (ChatPage.input st) = false ->
  failure stream = Some t ->
  ChatPage.messages (fst (ChatPage.handleSubmit pf st (FetchResponse true json (Some stream)))) =
  ChatPage.messages st ++
    [user_says (ChatPage.input st);
     assistant_says (concat_fragments (map (TextDecoder_decode pf) (chunks stream)));
     assistant_says ("Error: " +:+ error_message_or "Failed to connect to the backend" t)].
Proof.
  intros Hinput Hfail. unfold ChatPage.handleSubmit. rewrite Hinput.
  pose proof (consume_stream pf json stream
                (ChatPage.messages st ++ [user_says (ChatPage.input st)])) as Hmsgs.
  destruct (Streaming.consume_response pf _ _) as [msgs outcome] eqn:E.
  simpl in Hmsgs. subst msgs.
  assert (Hout : outcome = Throw t).
  { unfold Streaming.consume_response in E. simpl in E.
    destruct (Streaming.read_loop pf _ _ _) as [m' a'].
    rewrite Hfail in E. now inversion E. }
  subst outcome. simpl. now rewrite <- !app_assoc.
Qed.

Lemma stream_failure_keeps_partial_reply_witness :
  ChatPage.messages
    (fst (ChatPage.handleSubmit sample_platform sample_chat_state
            (FetchResponse true (Throw NonError) (Some sample_broken_stream)))) =
  [user_says "hello"; assistant_says "Hi"; assistant_says "Error: network error"].
Proof.
  exact (stream_failure_keeps_partial_reply sample_platform sample_chat_state
           (Throw NonError) sample_broken_stream (ErrorObj "network error")
           eq_refl eq_refl).
Defined.

(** ** General chat with an API key, second version of [page.tsx] *)


(** X6. The keyed chat never sends a request without an API key: with a
    non-blank input and an empty key it only asks for the key, shows the key
    form and keeps the input; with a key it sends exactly one request, which
    carries the key and the input; with a blank input it does nothing. *)
Theorem keyed_submit_needs_key (pf : Platform) (env_backend_url : option string)
    (st : ChatPageWithKey.State) (outcome : FetchOutcome) :
  let r := ChatPageWithKey.handleSubmit pf env_backend_url st outcome in
  if blank (ChatPageWithKey.input st) then r = (st, [])
  else if String.eqb (ChatPageWithKey.apiKey st) EmptyString then
    snd r = [] /\
    ChatPageWithKey.messages (fst r) =
      ChatPageWithKey.messages st ++ [assistant_says "Please enter your OpenAI API key first."] /\
    ChatPageWithKey.showApiKeyInput (fst r) = true /\
    ChatPageWithKey.input (fst r) = ChatPageWithKey.input st
  else
    requests (snd r) =
      [ChatPageWithKey.chat_request env_backend_url
         (ChatPageWithKey.input st) (ChatPageWithKey.apiKey st)].
Proof.
  unfold ChatPageWithKey.handleSubmit.
  destruct (blank (ChatPageWithKey.input st)); [reflexivity|].
  destruct (String.eqb (ChatPageWithKey.apiKey st) EmptyString); [simpl; auto|].
  pose proof (settle_sends_nothing
                (Streaming.consume_response pf outcome
                   (ChatPageWithKey.messages st ++ [user_says (ChatPageWithKey.input st)])))
    as H.
  destruct (Streaming.settle _) as [msgs effs]. simpl in *.
  unfold requests in *. rewrite filter_cons. simpl. now rewrite H.
Qed.

(** X7. The two checks of the key disagree on a key made of white space:
    the key form refuses it and changes nothing, yet [handleSubmit] takes any
    non-empty key as present and sends the request with it. *)
Theorem whitespace_key_is_sent (pf : Platform) (env_backend_url : option string)
    (st : ChatPageWithKey.State) (outcome : FetchOutcome) :
  blank (ChatPageWithKey.apiKey st) = true ->
  String.eqb (ChatPageWithKey.apiKey st) EmptyString = false ->
  blank (ChatPageWithKey.input st) = false ->
  ChatPageWithKey.handleApiKeySubmit st = st /\
  requests (snd (ChatPageWithKey.handleSubmit pf env_backend_url st outcome)) =
    [ChatPageWithKey.chat_request env_backend_url
       (ChatPageWithKey.input st) (ChatPageWithKey.apiKey st)].
Proof.
  intros Hblank Hkey Hinput. split.
  - unfold ChatPageWithKey.handleApiKeySubmit. now rewrite Hblank.
  - unfold ChatPageWithKey.handleSubmit. rewrite Hinput, Hkey.
    pose proof (settle_sends_nothing
                  (Streaming.consume_response pf outcome
                     (ChatPageWithKey.messages st ++ [user_says (ChatPageWithKey.input st)])))
      as H.
    destruct (Streaming.settle _) as [msgs effs]. simpl in *.
    unfold requests in *. rewrite filter_cons. simpl. now rewrite H.
Qed.

Lemma whitespace_key_is_sent_witness :
  let st := {| ChatPageWithKey.messages := []; ChatPageWithKey.input := "hello";
               ChatPageWithKey.isLoading := false; ChatPageWithKey.apiKey := "  ";
               ChatPageWithKey.showApiKeyInput := true |} in
  ChatPageWithKey.handleApiKeySubmit st = st /\
  requests (snd (ChatPageWithKey.handleSubmit sample_platform None st
                   (FetchRejected NonError))) =
    [ChatPageWithKey.chat_request None "hello" "  "].
Proof.
  exact (whitespace_key_is_sent sample_platform None
           {| ChatPageWithKey.messages := []; ChatPageWithKey.input := "hello";
              ChatPageWithKey.isLoading := false; ChatPageWithKey.apiKey := "  ";
              ChatPageWithKey.showApiKeyInput := true |}
           (FetchRejected NonError) eq_refl eq_refl eq_refl).
Defined.

(** ** The session page: sessions, upload, chat, deletion *)

Lemma with_sessions_same (st : RagPage.State) :
  RagPage.with_sessions (RagPage.sessions st) st = st.
Proof. now destruct st. Qed.

(** X8. [loadSessions] sends exactly one GET to [/api/rag/sessions] and can
    change nothing but the session list.  The list is kept as it was when
    the request is rejected, the status is an error, or the body is not
    readable JSON; a JSON object becomes the source of the new list through
    its [sessions] field, which is [undefined] when the field is missing. *)
Theorem loadSessions_touches_only_sessions (pf : Platform) (st : RagPage.State)
    (outcome : FetchOutcome) :
  let r := RagPage.loadSessions pf st outcome in
  (exists v, fst r = RagPage.with_sessions v st) /\
  requests (snd r) = [Fetch "/api/rag/sessions" "GET" NoBody] /\
  match outcome with
  | FetchResponse true (Normal (JObj fields)) _ =>
      RagPage.sessions (fst r) = lookup_field "sessions" fields
  | FetchResponse true (Normal (JUndefined | JNull)) _
  | FetchResponse true (Throw _) _
  | FetchResponse false _ _
  | FetchRejected _ => fst r = st
  | FetchResponse true (Normal _) _ => RagPage.sessions (fst r) = JUndefined
  end.
Proof.
  unfold RagPage.loadSessions.
  destruct outcome as [t | [|] [data|t] body]; simpl;
    try (split; [exists (RagPage.sessions st); now rewrite with_sessions_same|];
         split; reflexivity).
  destruct data; simpl;
    try (split; [exists (RagPage.sessions st); now rewrite with_sessions_same|];
         split; reflexivity);
    (split; [eexists; reflexivity|]; split; reflexivity).
Qed.

(** X9. The ways an upload of a PDF fails on the session page.  When the
    file cannot be read, no request is sent and the state is left alone but
    for the chat, replaced by one error message, and the busy flag, turned
    off.  When the request is rejected, the status is an error, the body is
    not JSON or the body is [null], the same holds with the upload request
    as the only request: the session list is not reloaded.  When a JSON
    object is answered whose file name or count cannot be converted to
    text, the chat and the busy flag end the same way and the upload
    request is again the only one, but the new session and the RAG mode are
    already in place. *)
Theorem upload_failure_paths (pf : Platform) (st : RagPage.State) (name : string)
    (reload : FetchOutcome) :
  has_pdf_extension name ->
  let failed t from :=
    RagPage.with_uploading false
      (RagPage.with_messages
         [assistant_says ("Error uploading PDF: " +:+ error_message_or "Unknown error" t)]
         from) in
  (forall upload,
     RagPage.handleFileUpload pf st (Some name) ReadFailed upload reload =
     (failed NonError st, [ConsoleError "Upload error:" NonError])) /\
  (forall dataUrl upload t,
     (upload = FetchRejected t \/
      (exists json body, upload = FetchResponse false json body /\
                         t = ErrorObj "Failed to upload PDF") \/
      (exists body, upload = FetchResponse true (Throw t) body) \/
      (exists body, upload = FetchResponse true (Normal JNull) body /\
                    t = ErrorObj (TypeError_message pf "session_id"))) ->
     let r := RagPage.handleFileUpload pf st (Some name) (ReadLoaded dataUrl) upload reload in
     fst r = failed t st /\ length (requests (snd r)) = 1) /\
  (forall dataUrl fields body t,
     (to_string pf (lookup_field "filename" fields) = Throw t \/
      (exists fname, to_string pf (lookup_field "filename" fields) = Normal fname /\
                     to_string pf (lookup_field "chunks_count" fields) = Throw t)) ->
     let r := RagPage.handleFileUpload pf st (Some name) (ReadLoaded dataUrl)
                (FetchResponse true (Normal (JObj fields)) body) reload in
     fst r =
       failed t
         {| RagPage.messages := []; RagPage.input := RagPage.input st;
            RagPage.isLoading := RagPage.isLoading st;
            RagPage.currentSession :=
              Some {| RagPage.session_id := lookup_field "session_id" fields;
                      RagPage.filename := lookup_field "filename" fields;
                      RagPage.chunks_count := lookup_field "chunks_count" fields |};
            RagPage.sessions := RagPage.sessions st;
            RagPage.uploading := true; RagPage.chatMode := RagPage.rag |} /\
     length (requests (snd r)) = 1).
Proof.
  intros Hname. apply is_pdf_name_iff in Hname.
  unfold RagPage.handleFileUpload. rewrite Hname. simpl.
  split; [reflexivity|]. split.
  - intros dataUrl upload t [-> | [(json & body & -> & ->) | [(body & ->) | (body & -> & ->)]]];
      simpl; split; reflexivity.
  - intros dataUrl fields body t Hthrow. unfold RagPage.welcome_text. simpl.
    destruct Hthrow as [-> | (fname & -> & ->)]; simpl; split; reflexivity.
Qed.

Lemma upload_failure_paths_witness :
  let failed t from :=
    RagPage.with_uploading false
      (RagPage.with_messages
         [assistant_says ("Error uploading PDF: " +:+ error_message_or "Unknown error" t)]
         from) in
  (forall upload,
     RagPage.handleFileUpload sample_platform sample_rag_state (Some "Report.PDF")
       ReadFailed upload (FetchRejected NonError) =
     (failed NonError sample_rag_state, [ConsoleError "Upload error:" NonError])) /\
  (forall dataUrl upload t,
     (upload = FetchRejected t \/
      (exists json body, upload = FetchResponse false json body /\
                         t = ErrorObj "Failed to upload PDF") \/
      (exists body, upload = FetchResponse true (Throw t) body) \/
      (exists body, upload = FetchResponse true (Normal JNull) body /\
                    t = ErrorObj (TypeError_message sample_platform "session_id"))) ->
     let r := RagPage.handleFileUpload sample_platform sample_rag_state (Some "Report.PDF")
                (ReadLoaded dataUrl) upload (FetchRejected NonError) in
     fst r = failed t sample_rag_state /\ length (requests (snd r)) = 1) /\
  (forall dataUrl fields body t,
     (to_string sample_platform (lookup_field "filename" fields) = Throw t \/
      (exists fname, to_string sample_platform (lookup_field "filename" fields) = Normal fname /\
                     to_string sample_platform (lookup_field "chunks_count" fields) = Throw t)) ->
     let r := RagPage.handleFileUpload sample_platform sample_rag_state (Some "Report.PDF")
                (ReadLoaded dataUrl)
                (FetchResponse true (Normal (JObj fields)) body) (FetchRejected NonError) in
     fst r =
       failed t
         {| RagPage.messages := []; RagPage.input := RagPage.input sample_rag_state;
            RagPage.isLoading := RagPage.isLoading sample_rag_state;
            RagPage.currentSession :=
              Some {| RagPage.session_id := lookup_field "session_id" fields;
                      RagPage.filename := lookup_field "filename" fields;
                      RagPage.chunks_count := lookup_field "chunks_count" fields |};
            RagPage.sessions := RagPage.sessions sample_rag_state;
            RagPage.uploading := true; RagPage.chatMode := RagPage.rag |} /\
     length (requests (snd r)) = 1).
Proof.
  exact (upload_failure_paths sample_platform sample_rag_state "Report.PDF"
           (FetchRejected NonError) a_pdf_has_pdf_extension).
Defined.

(** An answer whose file name is an object with an own [toString] key: the
    session is switched, the chat holds the conversion error. *)
Example upload_with_unprintable_filename :
  let st' := fst (RagPage.handleFileUpload sample_platform RagPage.initial (Some "a.pdf")
                    (ReadLoaded "data:application/pdf;base64,JVBERg==")
                    (FetchResponse true
                       (Normal (JObj [("session_id", JStr "s1");
                                      ("filename", JObj [("toString", JNum 1)]);
                                      ("chunks_count", JNum 3)])) None)
                    (FetchRejected NonError)) in
  RagPage.chatMode st' = RagPage.rag /\
  RagPage.messages st' =
    [assistant_says "Error uploading PDF: Cannot convert object to primitive value"].
Proof. split; reflexivity. Qed.

Lemma split_on_free (sep : ascii) (s : string) :
  free_of sep s = true -> split_on sep s = [s].
Proof.
  induction s as [|a s IH]; simpl; [reflexivity|].
  intros H. apply andb_true_iff in H as [Ha Hs].
  apply negb_true_iff in Ha. rewrite Ha, (IH Hs). reflexivity.
Qed.

Lemma split_on_first (sep : ascii) (header rest : string) :
  free_of sep header = true ->
  split_on sep (header +:+ String sep rest) = header :: split_on sep rest.
Proof.
  induction header as [|a header IH]; intros H.
  - rewrite str_app_nil_l. simpl. now rewrite Ascii.eqb_refl.
  - simpl in H. apply andb_true_iff in H as [Ha Hh]. apply negb_true_iff in Ha.
    rewrite str_app_cons. simpl. rewrite Ha, (IH Hh). reflexivity.
Qed.

(** X10. For a data URL made of a header, a comma and a payload, neither
    holding a further comma, the first thing the upload does after reading
    the file is to POST [{ file: payload, filename: name }] to
    [/api/rag/upload]: the header of the data URL is stripped and the name is
    sent as selected. *)
Theorem upload_sends_payload (pf : Platform) (st : RagPage.State) (name : string)
    (header payload : string) (upload reload : FetchOutcome) :
  has_pdf_extension name ->
  free_of "," header = true ->
  free_of "," payload = true ->
  head (snd (RagPage.handleFileUpload pf st (Some name)
               (ReadLoaded (header +:+ String "," payload)) upload reload)) =
  Some (Fetch "/api/rag/upload" "POST"
          (JsonBody (JObj [("file", JStr payload); ("filename", JStr name)]))).
Proof.
  intros Hname Hheader Hpayload. apply is_pdf_name_iff in Hname.
  unfold RagPage.handleFileUpload. rewrite Hname. simpl.
  rewrite (split_on_first _ _ _ Hheader), (split_on_free _ _ Hpayload). simpl.
  destruct (RagPage.read_upload_result pf upload) as [session|t]; simpl; [|reflexivity].
  destruct (RagPage.welcome_text pf session) as [text|t]; simpl; [|reflexivity].
  destruct (RagPage.loadSessions pf _ reload). reflexivity.
Qed.

Lemma upload_sends_payload_witness :
  head (snd (RagPage.handleFileUpload sample_platform sample_rag_state (Some "Report.PDF")
               (ReadLoaded ("data:application/pdf;base64" +:+ String "," "JVBERg=="))
               (FetchRejected NonError) (FetchRejected NonError))) =
  Some (Fetch "/api/rag/upload" "POST"
          (JsonBody (JObj [("file", JStr "JVBERg=="); ("filename", JStr "Report.PDF")]))).
Proof.
  exact (upload_sends_payload sample_platform sample_rag_state "Report.PDF"
           "data:application/pdf;base64" "JVBERg=="
           (FetchRejected NonError) (FetchRejected NonError)
           a_pdf_has_pdf_extension eq_refl eq_refl).
Defined.

(** X11. A submit on the session page with a non-blank input appends
    exactly the user's message and one assistant message, clears the input,
    turns the loading flag off and sends exactly one request; the current
    session, the session list, the upload flag and the mode stay as they
    were, whatever the server answers. *)
Theorem rag_submit_frame (pf : Platform) (st : RagPage.State) (outcome : FetchOutcome) :
  blank (RagPage.input st) = false ->
  let r := RagPage.handleSubmit pf st outcome in
  (exists reply,
     role reply = assistant /\
     RagPage.messages (fst r) =
       RagPage.messages st ++ [user_says (RagPage.input st); reply]) /\
  RagPage.input (fst r) = EmptyString /\
  RagPage.isLoading (fst r) = false /\
  RagPage.currentSession (fst r) = RagPage.currentSession st /\
  RagPage.sessions (fst r) = RagPage.sessions st /\
  RagPage.uploading (fst r) = RagPage.uploading st /\
  RagPage.chatMode (fst r) = RagPage.chatMode st /\
  requests (snd r) = [RagPage.chat_request st].
Proof.
  intros Hinput. unfold RagPage.handleSubmit. rewrite Hinput.
  assert (Hreq : is_fetch (RagPage.chat_request st) = true).
  { unfold RagPage.chat_request.
    destruct (RagPage.chatMode st), (RagPage.currentSession st); reflexivity. }
  destruct (RagPage.read_chat_answer pf outcome) as [text|t]; simpl;
    (split; [eexists; split; [|now rewrite <- app_assoc]; reflexivity|]);
    repeat (split; [reflexivity|]);
    unfold requests; rewrite filter_cons; rewrite Hreq; reflexivity.
Qed.

Lemma rag_submit_frame_witness :
  let r := RagPage.handleSubmit sample_platform sample_rag_state (FetchRejected NonError) in
  (exists reply,
     role reply = assistant /\
     RagPage.messages (fst r) = [] ++ [user_says "What is this about?"; reply]) /\
  RagPage.input (fst r) = EmptyString /\
  RagPage.isLoading (fst r) = false /\
  RagPage.currentSession (fst r) = Some sample_session /\
  RagPage.sessions (fst r) = JArr [] /\
  RagPage.uploading (fst r) = false /\
  RagPage.chatMode (fst r) = RagPage.rag /\
  requests (snd r) = [RagPage.chat_request sample_rag_state].
Proof.
  exact (rag_submit_frame sample_platform sample_rag_state (FetchRejected NonError) eq_refl).
Defined.

(** X12. On the session page an [error] field of a successful JSON answer
    wins over its text: whatever [content] and [message] hold, the assistant
    message shown is [Error: ] followed by the error converted to text, or
    by the message of the conversion failure when the error cannot be
    converted; what is shown is also what is logged. *)
Theorem rag_error_field_shown (pf : Platform) (st : RagPage.State)
    (fields : list (string * JsValue)) (body : option BodyStream) :
  blank (RagPage.input st) = false ->
  truthy (lookup_field "error" fields) = true ->
  let r := RagPage.handleSubmit pf st (FetchResponse true (Normal (JObj fields)) body) in
  let shown :=
    match to_string pf (lookup_field "error" fields) with
    | Normal text => ErrorObj text
    | Throw t => t
    end in
  RagPage.messages (fst r) =
    RagPage.messages st ++
      [user_says (RagPage.input st);
       assistant_says ("Error: " +:+ error_message_or "Failed to connect to the backend" shown)] /\
  ConsoleError "Error:" shown ∈ snd r.
Proof.
  intros Hinput Herr.
  unfold RagPage.handleSubmit, RagPage.read_chat_answer, throw_new_Error.
  rewrite Hinput. simpl. rewrite Herr. simpl.
  destruct (to_string pf (lookup_field "error" fields)) as [text|t]; simpl; split;
    try (now rewrite <- app_assoc); apply list_elem_of_further, list_elem_of_here.
Qed.

Lemma rag_error_field_shown_witness :
  let r := RagPage.handleSubmit sample_platform sample_rag_state
             (FetchResponse true
                (Normal (JObj [("content", JStr "It is a report.");
                               ("error", JStr "Session not found")])) None) in
  RagPage.messages (fst r) =
    [] ++ [user_says "What is this about?"; assistant_says "Error: Session not found"] /\
  ConsoleError "Error:" (ErrorObj "Session not found") ∈ snd r.
Proof.
  exact (rag_error_field_shown sample_platform sample_rag_state
           [("content", JStr "It is a report."); ("error", JStr "Session not found")]
           None eq_refl eq_refl).
Defined.

(** An [error] that is an object with an own [toString] key cannot be
    converted: the failure of the conversion is what the page shows. *)
Example rag_error_field_unprintable :
  RagPage.messages
    (fst (RagPage.handleSubmit sample_platform sample_rag_state
            (FetchResponse true
               (Normal (JObj [("error", JObj [("toString", JNum 1)])])) None))) =
  [user_says "What is this about?";
   assistant_says "Error: Cannot convert object to primitive value"].
Proof. reflexivity. Qed.

Lemma upload_success_state (pf : Platform) (st : RagPage.State) (name dataUrl : string)
    (fields : list (string * JsValue)) (body : option BodyStream) (reload : FetchOutcome) :
  is_pdf_name name = true ->
  let st' := fst (RagPage.handleFileUpload pf st (Some name) (ReadLoaded dataUrl)
                    (FetchResponse true (Normal (JObj fields)) body) reload) in
  RagPage.currentSession st' =
    Some {| RagPage.session_id := lookup_field "session_id" fields;
            RagPage.filename := lookup_field "filename" fields;
            RagPage.chunks_count := lookup_field "chunks_count" fields |} /\
  RagPage.chatMode st' = RagPage.rag.
Proof.
  intros Hname. unfold RagPage.handleFileUpload. rewrite Hname. simpl.
  destruct (RagPage.welcome_text pf _) as [text|t]; simpl; [|split; reflexivity].
  match goal with
  | |- context [RagPage.loadSessions pf ?s reload] =>
      pose proof (loadSessions_frame pf s reload) as Hframe;
      destruct (RagPage.loadSessions pf s reload) as [st2 effs]
  end.
  simpl in *. destruct Hframe as (_ & Hc & Hmode & _). now rewrite Hc, Hmode.
Qed.

(** X13. Upload and chat compose: after a successful upload, the next
    question typed and submitted goes to [/api/rag/chat] with the
    [session_id] the upload response carried, whatever the session reload
    answered in between. *)
Theorem chat_after_upload_uses_new_session (pf : Platform) (st : RagPage.State)
    (name dataUrl question : string) (fields : list (string * JsValue))
    (body : option BodyStream) (reload outcome : FetchOutcome) :
  has_pdf_extension name ->
  blank question = false ->
  let st1 := fst (RagPage.handleFileUpload pf st (Some name) (ReadLoaded dataUrl)
                    (FetchResponse true (Normal (JObj fields)) body) reload) in
  requests (snd (RagPage.handleSubmit pf (RagPage.setInput question st1) outcome)) =
  [Fetch "/api/rag/chat" "POST"
     (JsonBody (JObj [("session_id", lookup_field "session_id" fields);
                      ("user_message", JStr question);
                      ("model", JStr "gpt-4.1-mini")]))].
Proof.
  intros Hname Hq st1. apply is_pdf_name_iff in Hname.
  pose proof (upload_success_state pf st name dataUrl fields body reload Hname) as H.
  cbv zeta in H. fold st1 in H. destruct H as [Hsession Hmode].
  clearbody st1. destruct st1 as [m i l c s u cm]. simpl in *. subst c cm.
  unfold RagPage.handleSubmit. simpl. rewrite Hq.
  unfold RagPage.chat_request. simpl.
  destruct (RagPage.read_chat_answer pf outcome); reflexivity.
Qed.

Lemma chat_after_upload_uses_new_session_witness :
  let st1 := fst (RagPage.handleFileUpload sample_platform RagPage.initial (Some "Report.PDF")
                    (ReadLoaded "data:application/pdf;base64,JVBERg==")
                    (FetchResponse true
                       (Normal (JObj [("session_id", JStr "s7"); ("filename", JStr "Report.PDF");
                                      ("chunks_count", JNum 12)])) None)
                    (FetchRejected NonError)) in
  requests (snd (RagPage.handleSubmit sample_platform
                   (RagPage.setInput "What is this about?" st1) (FetchRejected NonError))) =
  [Fetch "/api/rag/chat" "POST"
     (JsonBody (JObj [("session_id", JStr "s7");
                      ("user_message", JStr "What is this about?");
                      ("model", JStr "gpt-4.1-mini")]))].
Proof.
  exact (chat_after_upload_uses_new_session sample_platform RagPage.initial
           "Report.PDF" "data:application/pdf;base64,JVBERg==" "What is this about?"
           [("session_id", JStr "s7"); ("filename", JStr "Report.PDF");
            ("chunks_count", JNum 12)] None (FetchRejected NonError) (FetchRejected NonError)
           a_pdf_has_pdf_extension eq_refl).
Defined.

Lemma loadSessions_requests (pf : Platform) (st : RagPage.State) (outcome : FetchOutcome) :
  requests (snd (RagPage.loadSessions pf st outcome)) =
  [Fetch "/api/rag/sessions" "GET" NoBody].
Proof.
  unfold RagPage.loadSessions.
  destruct outcome as [t | [|] [data|t] body]; simpl; try reflexivity.
  destruct (get_prop pf data "sessions"); reflexivity.
Qed.

(** X14. [deleteSession] sends one DELETE for the session.  When the server
    confirms, the session list is reloaded, and the page falls back to
    general chat with an empty message list if the deleted session is the
    current one, while chat, session and mode are untouched if it is another
    one.  When the request is rejected or refused, nothing changes and the
    list is not reloaded. *)
Theorem delete_session_outcomes (pf : Platform) (st : RagPage.State) (sessionId : string)
    (del reload : FetchOutcome) :
  let r := RagPage.deleteSession pf st sessionId del reload in
  match del with
  | FetchResponse true _ _ =>
      requests (snd r) =
        [Fetch ("/api/rag/sessions/" +:+ sessionId) "DELETE" NoBody;
         Fetch "/api/rag/sessions" "GET" NoBody] /\
      (if RagPage.is_current st sessionId
       then RagPage.chatMode (fst r) = RagPage.general /\
            RagPage.currentSession (fst r) = None /\
            RagPage.messages (fst r) = []
       else RagPage.chatMode (fst r) = RagPage.chatMode st /\
            RagPage.currentSession (fst r) = RagPage.currentSession st /\
            RagPage.messages (fst r) = RagPage.messages st)
  | _ =>
      fst r = st /\
      requests (snd r) = [Fetch ("/api/rag/sessions/" +:+ sessionId) "DELETE" NoBody]
  end.
Proof.
  unfold RagPage.deleteSession.
  destruct del as [t | [|] json body]; simpl; try (split; reflexivity).
  pose proof (loadSessions_frame pf st reload) as Hframe.
  pose proof (loadSessions_requests pf st reload) as Hreq.
  destruct (RagPage.loadSessions pf st reload) as [st1 effs]. simpl in *.
  destruct Hframe as (Hm & Hc & Hmode & _). split.
  - unfold requests in *. rewrite filter_cons. simpl. now rewrite Hreq.
  - destruct (RagPage.is_current st sessionId); simpl; auto.
Qed.

Lemma handleSubmit_keeps_mode (pf : Platform) (st : RagPage.State) (outcome : FetchOutcome) :
  let st' := fst (RagPage.handleSubmit pf st outcome) in
  RagPage.chatMode st' = RagPage.chatMode st /\
  RagPage.currentSession st' = RagPage.currentSession st.
Proof.
  unfold RagPage.handleSubmit. destruct (blank (RagPage.input st)); [auto|].
  destruct (RagPage.read_chat_answer pf outcome); simpl; auto.
Qed.

Lemma step_keeps_mode_matching (pf : Platform) (st : RagPage.State) (ev : RagPage.Event) :
  mode_matches_session st -> mode_matches_session (RagPage.step pf st ev).
Proof.
  unfold mode_matches_session. intros Hinv.
  assert (Hgeneral : RagPage.general = RagPage.rag <-> is_Some (@None RagPage.Session)).
  { split; [discriminate | intros [x Hx]; discriminate]. }
  assert (Hrag : forall s : RagPage.Session, RagPage.rag = RagPage.rag <-> is_Some (Some s)).
  { intros s. split; eauto. }
  destruct ev as [text | outcome | file read upload reload | outcome | | session
                 | sessionId del reload]; simpl.
  - exact Hinv.
  - destruct (handleSubmit_keeps_mode pf st outcome) as [-> ->]. exact Hinv.
  - unfold RagPage.handleFileUpload.
    destruct file as [name|]; [|exact Hinv].
    destruct (negb (is_pdf_name name)); [exact Hinv|].
    destruct read as [dataUrl|]; [|exact Hinv].
    destruct (RagPage.read_upload_result pf upload) as [session|t]; [|exact Hinv].
    destruct (RagPage.welcome_text pf session) as [text|t]; [|apply Hrag].
    match goal with
    | |- context [RagPage.loadSessions pf ?s reload] =>
        pose proof (loadSessions_frame pf s reload) as Hframe;
        destruct (RagPage.loadSessions pf s reload) as [st2 effs]
    end.
    simpl in *. destruct Hframe as (_ & -> & -> & _). apply Hrag.
  - destruct (loadSessions_frame pf st outcome) as (_ & -> & -> & _). exact Hinv.
  - exact Hgeneral.
  - apply Hrag.
  - unfold RagPage.deleteSession.
    destruct del as [t | [|] json body]; simpl; try exact Hinv.
    pose proof (loadSessions_frame pf st reload) as Hframe.
    destruct (RagPage.loadSessions pf st reload) as [st1 effs]. simpl in *.
    destruct Hframe as (_ & Hc & Hmode & _).
    destruct (RagPage.is_current st sessionId); simpl; [exact Hgeneral|].
    now rewrite Hc, Hmode.
Qed.

Lemma run_from_keeps_mode_matching (pf : Platform) (events : list RagPage.Event) :
  forall st, mode_matches_session st ->
             mode_matches_session (foldl (RagPage.step pf) st events).
Proof.
  induction events as [|ev events IH]; intros st Hinv; simpl; [exact Hinv|].
  apply IH, step_keeps_mode_matching, Hinv.
Qed.

(** X15. Whatever sequence of events the session page goes through, with
    whatever answers from the environment, it is in RAG mode exactly when it
    has a current session; so in RAG mode a submit always goes to
    [/api/rag/chat] with the identifier of that session, and in general mode
    always to [/api/chat]. *)
Theorem mode_always_matches_session (pf : Platform) (events : list RagPage.Event) :
  let st := RagPage.run pf events in
  mode_matches_session st /\
  match RagPage.chatMode st with
  | RagPage.rag =>
      exists session,
        RagPage.currentSession st = Some session /\
        RagPage.chat_request st =
          RagPage.rag_chat_request (RagPage.session_id session) (RagPage.input st)
  | RagPage.general =>
      RagPage.chat_request st = RagPage.general_chat_request (RagPage.input st)
  end.
Proof.
  assert (Hinv : mode_matches_session (RagPage.run pf events)).
  { apply run_from_keeps_mode_matching. unfold mode_matches_session. simpl.
    split; [discriminate | intros [x Hx]; discriminate]. }
  simpl. split; [exact Hinv|].
  unfold mode_matches_session, RagPage.chat_request in *.
  destruct (RagPage.chatMode (RagPage.run pf events)); [reflexivity|].
  destruct Hinv as [Hsome _]. destruct (Hsome eq_refl) as [session Hsession].
  exists session. now rewrite Hsession.
Qed.

(** ** The pdf-chat page *)

(** X16. An upload on the pdf-chat page, once past the guard, sends exactly
    one request (the file as form data to [/api/upload_pdf]), turns the
    upload flag off, resets the file input and leaves the input and the
    loading flag alone, in every outcome; the list of PDFs either stays as
    it was, with the selection, or gains one row that becomes the selection.
    Unless a queued updater throws at render, exactly one assistant message
    stamped with the current time is appended to the earlier ones.  An
    updater throws only after a 200 answer whose body is [null] or an object
    whose [filename] cannot be converted to text; on a [null] body it always
    does. *)
Theorem pdf_upload_frame (pf : Platform) (env_api_url : option string)
    (st : PdfChatPage.State) (name : string) (upload : FetchOutcome) (now : Z) :
  has_pdf_extension name ->
  let r := PdfChatPage.handleFileUpload pf env_api_url st (Some name) upload now in
  PdfChatPage.input (fst r) = PdfChatPage.input st /\
  PdfChatPage.isLoading (fst r) = PdfChatPage.isLoading st /\
  PdfChatPage.isUploading (fst r) = false /\
  requests (snd r) =
    [Fetch (PdfChatPage.apiUrl env_api_url +:+ "/api/upload_pdf") "POST" (FormDataFile name)] /\
  ResetFileInput ∈ snd r /\
  ((PdfChatPage.uploadedPDFs (fst r) = PdfChatPage.uploadedPDFs st /\
    PdfChatPage.selectedPDF (fst r) = PdfChatPage.selectedPDF st) \/
   (exists pdf,
      PdfChatPage.uploadedPDFs (fst r) = PdfChatPage.uploadedPDFs st ++ [pdf] /\
      PdfChatPage.selectedPDF (fst r) = PdfChatPage.filename pdf)) /\
  match filter is_render_crash (snd r) with
  | [] =>
      exists text,
        PdfChatPage.messages (fst r) =
          PdfChatPage.messages st ++
            [{| PdfChatPage.role := assistant; PdfChatPage.content := JStr text;
                PdfChatPage.timestamp := now |}]
  | _ =>
      exists result body,
        upload = FetchResponse true (Normal result) body /\
        (result = JNull \/ result = JUndefined \/
         exists fields t, result = JObj fields /\
                          to_string pf (lookup_field "filename" fields) = Throw t)
  end /\
  (forall body, upload = FetchResponse true (Normal JNull) body ->
     filter is_render_crash (snd r) =
       [RenderCrash (ErrorObj (TypeError_message pf "filename"))]).
Proof.
  intros Hname. apply is_pdf_name_iff in Hname.
  unfold PdfChatPage.handleFileUpload. rewrite Hname. simpl.
  destruct (PdfChatPage.read_upload_result pf upload) as [result|t] eqn:Hread.
  - assert (Hup : exists body, upload = FetchResponse true (Normal result) body).
    { unfold PdfChatPage.read_upload_result in Hread.
      destruct upload as [t | [|] json body]; simpl in Hread; try discriminate.
      - subst json. eauto.
      - unfold PdfChatPage.throw_detail, throw_new_Error in Hread.
        destruct json as [errorData|t]; simpl in Hread; [|discriminate].
        destruct (get_prop pf errorData "detail") as [detail|t]; simpl in Hread;
          [|discriminate].
        destruct (to_string pf _); discriminate. }
    destruct Hup as [body0 Hup].
    assert (Hfailed : forall t : Thrown,
              ResetFileInput ∈ [PdfChatPage.upload_request env_api_url name; ConsoleError "Upload error:" t;
                                ResetFileInput; RenderCrash t]).
    { intros t. apply list_elem_of_further, list_elem_of_further, list_elem_of_here. }
    assert (Hdone : forall rest : list Effect,
              ResetFileInput ∈ PdfChatPage.upload_request env_api_url name :: ResetFileInput :: rest).
    { intros rest. apply list_elem_of_further, list_elem_of_here. }
    destruct result as [| |b|n|str|items|fields]; simpl.
    + repeat (split; [reflexivity|]). split; [apply Hfailed|].
      split; [left; split; reflexivity|]. split.
      * exists JUndefined, body0. auto.
      * intros body Hbody. reflexivity.
    + repeat (split; [reflexivity|]). split; [apply Hfailed|].
      split; [left; split; reflexivity|]. split.
      * exists JNull, body0. auto.
      * intros body Hbody. reflexivity.
    + repeat (split; [reflexivity|]). split; [apply Hdone|].
      split; [right; eexists; split; reflexivity|]. split; [eexists; reflexivity|].
      intros body Hbody. rewrite Hbody in Hup. discriminate.
    + repeat (split; [reflexivity|]). split; [apply Hdone|].
      split; [right; eexists; split; reflexivity|]. split; [eexists; reflexivity|].
      intros body Hbody. rewrite Hbody in Hup. discriminate.
    + repeat (split; [reflexivity|]). split; [apply Hdone|].
      split; [right; eexists; split; reflexivity|]. split; [eexists; reflexivity|].
      intros body Hbody. rewrite Hbody in Hup. discriminate.
    + repeat (split; [reflexivity|]). split; [apply Hdone|].
      split; [right; eexists; split; reflexivity|]. split; [eexists; reflexivity|].
      intros body Hbody. rewrite Hbody in Hup. discriminate.
    + destruct (to_string pf (lookup_field "filename" fields)) as [text|t] eqn:Htext; simpl.
      * repeat (split; [reflexivity|]). split; [apply Hdone|].
        split; [right; eexists; split; reflexivity|]. split; [eexists; reflexivity|].
        intros body Hbody. rewrite Hbody in Hup. discriminate.
      * repeat (split; [reflexivity|]). split; [apply Hdone|].
        split; [right; eexists; split; reflexivity|]. split.
        -- exists (JObj fields), body0. split; [exact Hup|]. right. right. eauto.
        -- intros body Hbody. rewrite Hbody in Hup. discriminate.
  - simpl. repeat (split; [reflexivity|]).
    split; [apply list_elem_of_further, list_elem_of_further, list_elem_of_here|].
    split; [left; split; reflexivity|]. split; [eexists; reflexivity|].
    intros body Hbody. subst upload. simpl in Hread. discriminate.
Qed.

Lemma pdf_upload_frame_witness :
  let r := PdfChatPage.handleFileUpload sample_platform None sample_pdf_state
             (Some "Report.PDF") (FetchResponse true (Normal JNull) None) 5 in
  PdfChatPage.input (fst r) = "What is this about?" /\
  PdfChatPage.isLoading (fst r) = false /\
  PdfChatPage.isUploading (fst r) = false /\
  requests (snd r) =
    [Fetch (PdfChatPage.apiUrl None +:+ "/api/upload_pdf") "POST" (FormDataFile "Report.PDF")] /\
  ResetFileInput ∈ snd r /\
  ((PdfChatPage.uploadedPDFs (fst r) = [] /\
    PdfChatPage.selectedPDF (fst r) = JStr "a.pdf") \/
   (exists pdf,
      PdfChatPage.uploadedPDFs (fst r) = [] ++ [pdf] /\
      PdfChatPage.selectedPDF (fst r) = PdfChatPage.filename pdf)) /\
  (exists result body,
     FetchResponse true (Normal JNull) None = FetchResponse true (Normal result) body /\
     (result = JNull \/ result = JUndefined \/
      exists fields t, result = JObj fields /\
                       to_string sample_platform (lookup_field "filename" fields) = Throw t)) /\
  (forall body,
     FetchResponse true (Normal JNull) None = FetchResponse true (Normal JNull) body ->
     filter is_render_crash (snd r) =
       [RenderCrash (ErrorObj (TypeError_message sample_platform "filename"))]).
Proof.
  exact (pdf_upload_frame sample_platform None sample_pdf_state "Report.PDF"
           (FetchResponse true (Normal JNull) None) 5%Z a_pdf_has_pdf_extension).
Defined.

(** X17. When the server refuses an upload with a JSON object, the
    pdf-chat page shows as the reason the [detail] of that object converted
    to text (the message of the conversion failure when it cannot be
    converted), and the fixed text [Failed to upload PDF] when the object has
    no usable [detail]; the list of PDFs and the selection stay as they
    were. *)
Theorem pdf_upload_shows_detail (pf : Platform) (env_api_url : option string)
    (st : PdfChatPage.State) (name : string) (fields : list (string * JsValue))
    (body : option BodyStream) (now : Z) :
  has_pdf_extension name ->
  let st' := fst (PdfChatPage.handleFileUpload pf env_api_url st (Some name)
                    (FetchResponse false (Normal (JObj fields)) body) now) in
  PdfChatPage.content <$> last (PdfChatPage.messages st') =
    Some (JStr ("❌ Error uploading PDF: " +:+
                (if truthy (lookup_field "detail" fields)
                 then match to_string pf (lookup_field "detail" fields) with
                      | Normal text => text
                      | Throw t => error_message_or "Unknown error" t
                      end
                 else "Failed to upload PDF"))) /\
  PdfChatPage.uploadedPDFs st' = PdfChatPage.uploadedPDFs st /\
  PdfChatPage.selectedPDF st' = PdfChatPage.selectedPDF st.
Proof.
  intros Hname. apply is_pdf_name_iff in Hname.
  unfold PdfChatPage.handleFileUpload, PdfChatPage.read_upload_result,
    PdfChatPage.throw_detail, throw_new_Error.
  rewrite Hname. simpl. unfold js_or.
  destruct (truthy (lookup_field "detail" fields)); simpl.
  - destruct (to_string pf (lookup_field "detail" fields)); simpl;
      rewrite last_snoc; auto.
  - rewrite last_snoc. auto.
Qed.

Lemma pdf_upload_shows_detail_witness :
  let st' := fst (PdfChatPage.handleFileUpload sample_platform None sample_pdf_state
                    (Some "Report.PDF")
                    (FetchResponse false
                       (Normal (JObj [("detail", JStr "Only PDF files are allowed")])) None)
                    5) in
  PdfChatPage.content <$> last (PdfChatPage.messages st') =
    Some (JStr ("❌ Error uploading PDF: " +:+ "Only PDF files are allowed")) /\
  PdfChatPage.uploadedPDFs st' = [] /\
  PdfChatPage.selectedPDF st' = JStr "a.pdf".
Proof.
  exact (pdf_upload_shows_detail sample_platform None sample_pdf_state "Report.PDF"
           [("detail", JStr "Only PDF files are allowed")] None 5%Z
           a_pdf_has_pdf_extension).
Defined.

(** X18. Upload and chat compose on the pdf-chat page: after a successful
    upload the next question typed and submitted is sent with the
    [filename] of the upload response as [pdf_filename], not with the name
    of the local file; when the response had no usable [filename], the
    submit sends nothing and changes nothing. *)
Theorem pdf_chat_after_upload (pf : Platform) (env_api_url : option string)
    (st : PdfChatPage.State) (name question : string)
    (fields : list (string * JsValue)) (body : option BodyStream) (now : Z)
    (outcome : FetchOutcome) (sent_at replied_at : Z) :
  has_pdf_extension name ->
  blank question = false ->
  let st1 := PdfChatPage.setInput question
               (fst (PdfChatPage.handleFileUpload pf env_api_url st (Some name)
                       (FetchResponse true (Normal (JObj fields)) body) now)) in
  let r := PdfChatPage.handleSubmit pf env_api_url st1 outcome sent_at replied_at in
  if truthy (lookup_field "filename" fields)
  then requests (snd r) =
         [Fetch (PdfChatPage.apiUrl env_api_url +:+ "/api/pdf_chat") "POST"
            (JsonBody (JObj [("question", JStr question);
                             ("pdf_filename", lookup_field "filename" fields);
                             ("model", JStr "gpt-4o-mini")]))]
  else r = (st1, []).
Proof.
  intros Hname Hq. apply is_pdf_name_iff in Hname.
  unfold PdfChatPage.handleFileUpload, PdfChatPage.read_upload_result.
  rewrite Hname. simpl.
  assert (Hreq : forall st0 : PdfChatPage.State,
            PdfChatPage.input st0 = question ->
            PdfChatPage.selectedPDF st0 = lookup_field "filename" fields ->
            if truthy (lookup_field "filename" fields)
            then requests (snd (PdfChatPage.handleSubmit pf env_api_url st0 outcome
                                  sent_at replied_at)) =
                   [Fetch (PdfChatPage.apiUrl env_api_url +:+ "/api/pdf_chat") "POST"
                      (JsonBody (JObj [("question", JStr question);
                                       ("pdf_filename", lookup_field "filename" fields);
                                       ("model", JStr "gpt-4o-mini")]))]
            else PdfChatPage.handleSubmit pf env_api_url st0 outcome sent_at replied_at
                 = (st0, [])).
  { intros st0 Hi Hs. unfold PdfChatPage.handleSubmit, PdfChatPage.chat_request.
    rewrite Hi, Hs, Hq.
    destruct (truthy (lookup_field "filename" fields)); simpl; [|reflexivity].
    destruct (PdfChatPage.read_chat_result pf outcome) as [result|t]; simpl;
      [|reflexivity].
    destruct (get_prop pf result "answer"); reflexivity. }
  destruct (to_string pf (lookup_field "filename" fields)); simpl;
    apply Hreq; reflexivity.
Qed.

Lemma pdf_chat_after_upload_witness :
  let st1 := PdfChatPage.setInput "What is this about?"
               (fst (PdfChatPage.handleFileUpload sample_platform None PdfChatPage.initial
                       (Some "Report.PDF")
                       (FetchResponse true
                          (Normal (JObj [("filename", JStr "report.pdf");
                                         ("status", JStr "indexed")])) None) 5)) in
  let r := PdfChatPage.handleSubmit sample_platform None st1 (FetchRejected NonError) 6 7 in
  if truthy (lookup_field "filename" [("filename", JStr "report.pdf");
                                      ("status", JStr "indexed")])
  then requests (snd r) =
         [Fetch (PdfChatPage.apiUrl None +:+ "/api/pdf_chat") "POST"
            (JsonBody (JObj [("question", JStr "What is this about?");
                             ("pdf_filename",
                              lookup_field "filename" [("filename", JStr "report.pdf");
                                                       ("status", JStr "indexed")]);
                             ("model", JStr "gpt-4o-mini")]))]
  else r = (st1, []).
Proof.
  exact (pdf_chat_after_upload sample_platform None PdfChatPage.initial
           "Report.PDF" "What is this about?"
           [("filename", JStr "report.pdf"); ("status", JStr "indexed")] None 5%Z
           (FetchRejected NonError) 6%Z 7%Z a_pdf_has_pdf_extension eq_refl).
Defined.

(** X19. A submit on the pdf-chat page does nothing at all while no PDF is
    selected or the input is blank; otherwise it sends exactly one request,
    clears the input, turns the loading flag off and leaves the list of
    PDFs, the selection and the upload flag alone.  Unless the updater of
    the reply throws at render, the user's message stamped with the first
    clock reading and one assistant message stamped with the second are
    appended; the updater throws exactly when a 200 answer has the body
    [null] (or [undefined]), and then only the user's message has been
    appended and nothing is logged. *)
Theorem pdf_submit_frame (pf : Platform) (env_api_url : option string)
    (st : PdfChatPage.State) (outcome : FetchOutcome) (sent_at replied_at : Z) :
  let r := PdfChatPage.handleSubmit pf env_api_url st outcome sent_at replied_at in
  let asked :=
    {| PdfChatPage.role := user; PdfChatPage.content := JStr (PdfChatPage.input st);
       PdfChatPage.timestamp := sent_at |} in
  if blank (PdfChatPage.input st) || negb (truthy (PdfChatPage.selectedPDF st))
  then r = (st, [])
  else
    PdfChatPage.input (fst r) = EmptyString /\
    PdfChatPage.isLoading (fst r) = false /\
    PdfChatPage.uploadedPDFs (fst r) = PdfChatPage.uploadedPDFs st /\
    PdfChatPage.selectedPDF (fst r) = PdfChatPage.selectedPDF st /\
    PdfChatPage.isUploading (fst r) = PdfChatPage.isUploading st /\
    requests (snd r) = [PdfChatPage.chat_request env_api_url st] /\
    match outcome with
    | FetchResponse true (Normal (JNull | JUndefined)) _ =>
        PdfChatPage.messages (fst r) = PdfChatPage.messages st ++ [asked] /\
        snd r = [PdfChatPage.chat_request env_api_url st;
                 RenderCrash (ErrorObj (TypeError_message pf "answer"))]
    | _ =>
        filter is_render_crash (snd r) = [] /\
        exists reply,
          PdfChatPage.messages (fst r) =
            PdfChatPage.messages st ++
              [asked;
               {| PdfChatPage.role := assistant; PdfChatPage.content := reply;
                  PdfChatPage.timestamp := replied_at |}]
    end.
Proof.
  unfold PdfChatPage.handleSubmit.
  destruct (blank (PdfChatPage.input st) || negb (truthy (PdfChatPage.selectedPDF st)));
    [reflexivity|].
  assert (Hcaught : forall t : Thrown,
            PdfChatPage.read_chat_result pf outcome = Throw t ->
            match outcome with
            | FetchResponse true (Normal (JNull | JUndefined)) _ => False
            | _ => True
            end).
  { intros t Hread. destruct outcome as [t0 | [|] [result|t0] body]; try exact I.
    simpl in Hread. discriminate. }
  assert (Hread_ok : forall result : JsValue,
            PdfChatPage.read_chat_result pf outcome = Normal result ->
            exists body, outcome = FetchResponse true (Normal result) body).
  { intros result Hread. unfold PdfChatPage.read_chat_result in Hread.
    destruct outcome as [t | [|] json body]; simpl in Hread; try discriminate.
    - subst json. eauto.
    - unfold PdfChatPage.throw_detail, throw_new_Error in Hread.
      destruct json as [errorData|t]; simpl in Hread; [|discriminate].
      destruct (get_prop pf errorData "detail") as [detail|t]; simpl in Hread;
        [|discriminate].
      destruct (to_string pf _); discriminate. }
  destruct (PdfChatPage.read_chat_result pf outcome) as [result|t] eqn:Hread.
  - destruct (Hread_ok result eq_refl) as [body ->].
    destruct result; simpl; do 6 (split; [reflexivity|]);
      first [split; reflexivity
            | split; [reflexivity|]; eexists; rewrite <- app_assoc; reflexivity].
  - specialize (Hcaught t eq_refl). simpl.
    do 6 (split; [reflexivity|]).
    destruct outcome as [t0 | [|] [[]|t0] body]; try contradiction;
      (split; [reflexivity|]; eexists; rewrite <- app_assoc; reflexivity).
Qed.

Lemma pdf_step_keeps_selection_listed (pf : Platform) (env_api_url : option string)
    (st : PdfChatPage.State) (ev : PdfChatPage.Event) :
  selection_is_listed st -> selection_is_listed (PdfChatPage.step pf env_api_url st ev).
Proof.
  unfold selection_is_listed. intros Hinv.
  destruct ev as [text | outcome sent_at replied_at | file upload now | row]; simpl.
  - exact Hinv.
  - unfold PdfChatPage.handleSubmit.
    destruct (blank (PdfChatPage.input st) || negb (truthy (PdfChatPage.selectedPDF st)));
      [exact Hinv|].
    destruct (PdfChatPage.read_chat_result pf outcome) as [result|t]; [|exact Hinv].
    destruct (get_prop pf result "answer"); exact Hinv.
  - unfold PdfChatPage.handleFileUpload.
    destruct file as [name|]; [|exact Hinv].
    destruct (negb (is_pdf_name name)); [exact Hinv|].
    destruct (PdfChatPage.read_upload_result pf upload) as [result|t]; [|exact Hinv].
    destruct (get_prop pf result "filename") as [fname|t];
      [|destruct (get_prop pf result "status"); exact Hinv].
    destruct (get_prop pf result "status") as [fstatus|t]; [|exact Hinv].
    assert (Hrow : {| PdfChatPage.filename := fname; PdfChatPage.status := fstatus |}
                   ∈ PdfChatPage.uploadedPDFs st ++
                     [{| PdfChatPage.filename := fname; PdfChatPage.status := fstatus |}]).
    { apply elem_of_app. right. apply list_elem_of_here. }
    destruct (to_string pf fname); simpl; right; eexists; (split; [exact Hrow|reflexivity]).
  - destruct (PdfChatPage.uploadedPDFs st !! row) as [pdf|] eqn:Hrow; [|exact Hinv].
    simpl. right. exists pdf. split; [|reflexivity].
    apply list_elem_of_lookup. eauto.
Qed.

(** X20. Whatever sequence of events the pdf-chat page goes through, the
    selected PDF is either none or the name of a row of its list of uploaded
    PDFs: a chat request can only name a file that an upload response
    reported. *)
Theorem selection_always_listed (pf : Platform) (env_api_url : option string)
    (events : list PdfChatPage.Event) :
  selection_is_listed (PdfChatPage.run pf env_api_url events).
Proof.
  unfold PdfChatPage.run.
  assert (H : forall st, selection_is_listed st ->
                         selection_is_listed (foldl (PdfChatPage.step pf env_api_url) st events)).
  { induction events as [|ev events IH]; intros st Hinv; simpl; [exact Hinv|].
    apply IH, pdf_step_keeps_selection_listed, Hinv. }
  apply H. left. reflexivity.
Qed.
